(** * Cinema ticket booking: booking lifecycle and seat-selection history

    A shallow embedding of the stateful cores of the repository:

    - [BookingStatus]: the booking lifecycle (State pattern):
      [BookingContext] and its six state classes;
    - [Seat] and [SeatSelection]: the seat registry [SeatManager], the three
      command classes and the undo/redo engine [SeatSelectionInvoker]
      (Command pattern), with the facade [SeatSelectionController];
    - [SeatAvailability]: [RealSeatAvailabilityService], the real subject
      of the seat-availability proxy, which keeps the seats of each
      showtime and confirms a booking for all its seats or for none.

    Modelling conventions.

    - A TypeScript [number] is an exact rational ([Qc]): [0.8] is [4/5],
      [1.5] is [3/2], comparison is the order of the rationals and
      [Math.round x] is [floor (x + 1/2)].  Rounding error of double
      arithmetic, [NaN] and the infinities are outside the model.
    - Objects mutated in place are modelled by explicit state passing; the
      command objects, which the invoker holds by reference in its two
      stacks, live in a heap indexed by reference.  A seat object is made
      by [initializeSeats], one for each key, and is changed through the
      registry only, so the registry maps a code to the seat record itself.
      All commands act on the one registry of their world, as those made
      by [SeatSelectionController] do.
    - The [Map] of seats is a [gmap] (the order of its keys is not kept);
      the [Set] of selected codes is the list of its members in insertion
      order.  Row and seat counts are natural numbers and the history size
      is an integer.
    - [Date] values (time stamps) are not modelled.  Where the clock or the
      random generator decides a stored value (a transaction id, a booking
      id, a seat booked in advance) the value drawn is an argument.
    - [console.log] output is not modelled, except for the amount printed
      by the two refund paths, which the refund method returns. *)

From Stdlib Require Import QArith Qcanon Qround.
From stdpp Require Import gmap strings list fin_maps numbers pretty.

Local Open Scope Z_scope.

(** ** Numbers *)

Module JS.

Definition number : Type := Qc.

Definition of_Z (z : Z) : number := Qc_of_Z z.

(** The literals of the source. *)
Definition lit_0_8 : number := Q2Qc (4 # 5).
Definition lit_1_5 : number := Q2Qc (3 # 2).
Definition lit_0_5 : number := Q2Qc (1 # 2).

(** [a < b] on numbers, as a boolean.  On the numbers of the model the
    test is false exactly when [b <= a]; on doubles it is false also when
    a side is [NaN], which no number of the model is. *)
Definition ltb (a b : number) : bool :=
  match (a ?= b)%Qc with Lt => true | _ => false end.

(** [Math.round]: the nearest integer, a tie going up. *)
Definition Math_round (x : number) : Z := Qfloor (x + lit_0_5)%Qc.

(** JavaScript truthiness of a string: only the empty string is falsy. *)
Definition truthy (s : string) : bool :=
  match s with EmptyString => false | _ => true end.

End JS.

(** ** src/booking/BookingStatus.ts *)

Module BookingStatus.

(** The six classes implementing [BookingState]; the objects carry no
    field, so a state object is its class. *)
Inductive BookingState : Type :=
| DraftState
| PendingState
| PaidState
| ConfirmedState
| CompletedState
| CancelledState.

#[global] Instance BookingState_eq_dec : EqDecision BookingState.
Proof. solve_decision. Defined.

Definition getName (s : BookingState) : string :=
  match s with
  | DraftState => "Draft"
  | PendingState => "Pending"
  | PaidState => "Paid"
  | ConfirmedState => "Confirmed"
  | CompletedState => "Completed"
  | CancelledState => "Cancelled"
  end.

Definition canModify (s : BookingState) : bool :=
  match s with DraftState => true | _ => false end.

Definition canPay (s : BookingState) : bool :=
  match s with PendingState => true | _ => false end.

Definition canCancel (s : BookingState) : bool :=
  match s with DraftState | PendingState => true | _ => false end.

Definition canRefund (s : BookingState) : bool :=
  match s with PaidState | ConfirmedState => true | _ => false end.

(** [StateHistoryEntry], without its time stamp. *)
Record StateHistoryEntry : Type := mkEntry {
  fromState : string;
  toState : string
}.

(** [BookingContext], without [createdAt] and [updatedAt]. *)
Record BookingContext : Type := mkContext {
  state : BookingState;
  bookingId : string;
  customerName : string;
  movieTitle : string;
  seats : list string;
  totalAmount : JS.number;
  paidAmount : JS.number;
  transactionId : option string;
  stateHistory : list StateHistoryEntry
}.

Definition getSeats (c : BookingContext) : list string := seats c.
Definition getTotalAmount (c : BookingContext) : JS.number := totalAmount c.
Definition getPaidAmount (c : BookingContext) : JS.number := paidAmount c.
Definition getStateName (c : BookingContext) : string := getName (state c).

(** [this.stateHistory.push({fromState: previousState, toState: this.state.getName()})] *)
Definition logStateChange (previousState : string) (c : BookingContext)
  : BookingContext :=
  mkContext (state c) (bookingId c) (customerName c) (movieTitle c)
    (seats c) (totalAmount c) (paidAmount c) (transactionId c)
    (stateHistory c ++ [mkEntry previousState (getName (state c))]).

Definition setState (s : BookingState) (c : BookingContext) : BookingContext :=
  let previousState := getName (state c) in
  let c1 :=
    mkContext s (bookingId c) (customerName c) (movieTitle c)
      (seats c) (totalAmount c) (paidAmount c) (transactionId c)
      (stateHistory c) in
  logStateChange previousState c1.

Definition setPaidAmount (amount : JS.number) (c : BookingContext)
  : BookingContext :=
  mkContext (state c) (bookingId c) (customerName c) (movieTitle c)
    (seats c) (totalAmount c) amount (transactionId c) (stateHistory c).

Definition setTransactionId (id : string) (c : BookingContext)
  : BookingContext :=
  mkContext (state c) (bookingId c) (customerName c) (movieTitle c)
    (seats c) (totalAmount c) (paidAmount c) (Some id) (stateHistory c).

(** The constructor.  [generated] is the id [generateBookingId] would
    draw from the clock and the random generator; it is used when the
    optional [bookingId] is absent or falsy. *)
Definition new_BookingContext (generated : string)
    (customerName movieTitle : string) (bookingId : option string)
  : BookingContext :=
  let id :=
    match bookingId with
    | Some b => if JS.truthy b then b else generated
    | None => generated
    end in
  logStateChange "Initial"
    (mkContext DraftState id customerName movieTitle [] 0%Qc 0%Qc None []).

(** *** The methods of the state classes

    Each takes the receiver state [s] first and the context last. *)

(** Every class only prints here. *)
Definition State_addSeat (s : BookingState) (context : BookingContext)
  : BookingContext := context.

Definition State_proceedToPayment (s : BookingState) (context : BookingContext)
  : BookingContext :=
  match s with
  | DraftState =>
      if Nat.eqb (length (getSeats context)) 0 then context
      else setState PendingState context
  | _ => context
  end.

(** [now] is [Date.now().toString(36).toUpperCase()]. *)
Definition State_pay (s : BookingState) (now : string) (amount : JS.number)
    (context : BookingContext) : BookingContext :=
  match s with
  | PendingState =>
      let required := getTotalAmount context in
      if JS.ltb amount required then context
      else
        let context := setPaidAmount amount context in
        let context := setTransactionId ("TXN-" +:+ now) context in
        setState PaidState context
  | _ => context
  end.

Definition State_confirm (s : BookingState) (context : BookingContext)
  : BookingContext :=
  match s with
  | PaidState => setState ConfirmedState context
  | _ => context
  end.

Definition State_complete (s : BookingState) (context : BookingContext)
  : BookingContext :=
  match s with
  | ConfirmedState => setState CompletedState context
  | _ => context
  end.

Definition State_cancel (s : BookingState) (context : BookingContext)
  : BookingContext :=
  match s with
  | DraftState | PendingState => setState CancelledState context
  | _ => context
  end.

(** The second component is the amount of the "Refunding Rp ..." line,
    when the class prints one. *)
Definition State_refund (s : BookingState) (context : BookingContext)
  : BookingContext * option JS.number :=
  match s with
  | PaidState =>
      let printed := getPaidAmount context in
      (setState CancelledState context, Some printed)
  | ConfirmedState =>
      let refundAmount := JS.Math_round (getPaidAmount context * JS.lit_0_8)%Qc in
      (setState CancelledState context, Some (JS.of_Z refundAmount))
  | _ => (context, None)
  end.

(** *** The delegating methods of [BookingContext] *)

Definition addSeat (seatCode : string) (price : JS.number) (c : BookingContext)
  : BookingContext :=
  let c := State_addSeat (state c) c in
  if canModify (state c) then
    mkContext (state c) (bookingId c) (customerName c) (movieTitle c)
      (seats c ++ [seatCode]) (totalAmount c + price)%Qc (paidAmount c)
      (transactionId c) (stateHistory c)
  else c.

Definition proceedToPayment (c : BookingContext) : BookingContext :=
  State_proceedToPayment (state c) c.

Definition pay (now : string) (amount : JS.number) (c : BookingContext)
  : BookingContext :=
  State_pay (state c) now amount c.

Definition confirm (c : BookingContext) : BookingContext :=
  State_confirm (state c) c.

Definition complete (c : BookingContext) : BookingContext :=
  State_complete (state c) c.

Definition cancel (c : BookingContext) : BookingContext :=
  State_cancel (state c) c.

Definition refund (c : BookingContext) : BookingContext * option JS.number :=
  State_refund (state c) c.

(** *** Callers

    A call of a public method that can change the booking. *)
Inductive Call : Type :=
| CallAddSeat (seatCode : string) (price : JS.number)
| CallProceedToPayment
| CallPay (now : string) (amount : JS.number)
| CallConfirm
| CallComplete
| CallCancel
| CallRefund
| CallSetState (s : BookingState)
| CallSetPaidAmount (amount : JS.number)
| CallSetTransactionId (id : string).

Definition call (k : Call) (c : BookingContext) : BookingContext :=
  match k with
  | CallAddSeat seatCode price => addSeat seatCode price c
  | CallProceedToPayment => proceedToPayment c
  | CallPay now amount => pay now amount c
  | CallConfirm => confirm c
  | CallComplete => complete c
  | CallCancel => cancel c
  | CallRefund => fst (refund c)
  | CallSetState s => setState s c
  | CallSetPaidAmount amount => setPaidAmount amount c
  | CallSetTransactionId id => setTransactionId id c
  end.

(** Calls are made one after the other, the first of the list first. *)
Definition calls (ks : list Call) (c : BookingContext) : BookingContext :=
  foldl (fun c k => call k c) c ks.

(** The seven lifecycle operations (no direct [setState] and no setter). *)
Definition lifecycle (k : Call) : bool :=
  match k with
  | CallSetState _ | CallSetPaidAmount _ | CallSetTransactionId _ => false
  | _ => true
  end.

(** A log is a chain when each entry starts where the one before ended. *)
Fixpoint chained (prev : string) (log : list StateHistoryEntry) : Prop :=
  match log with
  | [] => True
  | e :: log' => fromState e = prev /\ chained (toState e) log'
  end.

(** Where a log starting from [prev] ends. *)
Definition endpoint (prev : string) (log : list StateHistoryEntry) : string :=
  foldl (fun _ e => toState e) prev log.

(** The invariant of the transition log: it is a chain from 'Initial' whose first
    link ends in 'Draft' and whose last link ends in the current state. *)
Definition log_inv (c : BookingContext) : Prop :=
  exists rest,
    stateHistory c = mkEntry "Initial" "Draft" :: rest /\
    chained "Draft" rest /\
    endpoint "Draft" rest = getName (state c).

(** The arrows of the state machine diagram drawn at the end of the
    source file. *)
Definition diagram (s t : BookingState) : bool :=
  match s, t with
  | DraftState, PendingState
  | DraftState, CancelledState
  | PendingState, PaidState
  | PendingState, CancelledState
  | PaidState, ConfirmedState
  | PaidState, CancelledState
  | ConfirmedState, CompletedState
  | ConfirmedState, CancelledState => true
  | _, _ => false
  end.

(** What the state says about the payment and the line items.  The
    amounts are compared by the test that guards [PendingState.pay],
    [amount < required], and by nothing else. *)
Definition payment_inv (c : BookingContext) : Prop :=
  match state c with
  | DraftState => paidAmount c = 0%Qc /\ transactionId c = None
  | PendingState =>
      paidAmount c = 0%Qc /\ transactionId c = None /\ seats c <> []
  | PaidState | ConfirmedState | CompletedState =>
      JS.ltb (paidAmount c) (getTotalAmount c) = false /\
      is_Some (transactionId c) /\ seats c <> []
  | CancelledState => True
  end.

(** *** Bookings used as examples *)

(** A booking as the tests build it: one seat, then on to payment. *)
Definition one_seat (price : Z) : BookingContext :=
  calls [CallAddSeat "A1" (JS.of_Z price); CallProceedToPayment]
    (new_BookingContext "BKG-GENERATED" "John Doe" "Avatar 2" None).

(** ... then paid in full, at clock reading [now]. *)
Definition one_seat_paid (price : Z) : BookingContext :=
  call (CallPay "LX2F3K9A" (JS.of_Z price)) (one_seat price).

(** ... then confirmed. *)
Definition one_seat_confirmed (price : Z) : BookingContext :=
  call CallConfirm (one_seat_paid price).

End BookingStatus.

(** ** src/models/Seat.ts *)

Module Seat.

Inductive SeatStatus : Type := AVAILABLE | SELECTED | BOOKED | UNAVAILABLE.

Inductive SeatType : Type := REGULAR | VIP | COUPLE | WHEELCHAIR.

#[global] Instance SeatStatus_eq_dec : EqDecision SeatStatus.
Proof. solve_decision. Defined.

#[global] Instance SeatType_eq_dec : EqDecision SeatType.
Proof. solve_decision. Defined.

(** [SeatImpl].  [row] is [None] when the constructor was handed
    [undefined] (a row index past the 26 letters). *)
Record SeatImpl : Type := mkSeat {
  id : string;
  row : option string;
  number : nat;
  type : SeatType;
  status : SeatStatus;
  price : JS.number
}.

(** A value inside a template literal. *)
Definition template (o : option string) : string :=
  match o with Some s => s | None => "undefined" end.

Definition getCode (s : SeatImpl) : string :=
  template (row s) +:+ pretty (number s).

Definition isAvailable (s : SeatImpl) : bool :=
  bool_decide (status s = AVAILABLE).

(** The assignment [seat.status = st]. *)
Definition set_status (st : SeatStatus) (s : SeatImpl) : SeatImpl :=
  mkSeat (id s) (row s) (number s) (type s) st (price s).

(** The three methods of [SeatImpl] that change the status. *)
Definition select (s : SeatImpl) : SeatImpl :=
  if isAvailable s then set_status SELECTED s else s.

Definition deselect (s : SeatImpl) : SeatImpl :=
  if decide (status s = SELECTED) then set_status AVAILABLE s else s.

Definition book (s : SeatImpl) : SeatImpl :=
  if decide (status s = SELECTED) then set_status BOOKED s else s.

End Seat.

(** ** src/seat/SeatSelection.ts *)

Module SeatSelection.

Import Seat.

(** *** A JavaScript [Set] of strings: its members in insertion order *)

Definition Set_add (x : string) (l : list string) : list string :=
  if decide (x ∈ l) then l else l ++ [x].

Definition Set_delete (x : string) (l : list string) : list string :=
  filter (fun y => y ≠ x) l.

(** *** The receiver: [SeatManager] *)

Record SeatManager : Type := mkManager {
  seats : gmap string SeatImpl;
  selectedSeats : list string
}.

Definition new_SeatManager : SeatManager := mkManager ∅ [].

Definition rowLabels : string := "ABCDEFGHIJKLMNOPQRSTUVWXYZ".

(** [rowLabels[r]] *)
Definition rowLabel (r : nat) : option string :=
  (fun a => String a EmptyString) <$> String.get r rowLabels.

(** The body of the inner loop of [initializeSeats].  [isBooked] is the
    outcome of [Math.random() < 0.15] for this seat. *)
Definition initializeSeat (showtimeId : string) (rows : nat)
    (basePrice : JS.number) (isBooked : bool) (r s : nat)
    (m : SeatManager) : SeatManager :=
  let seatCode := template (rowLabel r) +:+ pretty s in
  let seatId := showtimeId +:+ "-" +:+ seatCode in
  let seatType := if (Z.of_nat rows - 2 <=? Z.of_nat r) then VIP else REGULAR in
  let price :=
    match seatType with
    | VIP => (basePrice * JS.lit_1_5)%Qc
    | _ => basePrice
    end in
  mkManager
    (<[seatCode := mkSeat seatId (rowLabel r) s seatType
                     (if isBooked then BOOKED else AVAILABLE) price]> (seats m))
    (selectedSeats m).

(** [random r s] is the draw made for the seat of row index [r] and
    number [s]. *)
Definition initializeSeats (random : nat -> nat -> bool) (showtimeId : string)
    (rows seatsPerRow : nat) (basePrice : JS.number) (m : SeatManager)
  : SeatManager :=
  foldl (fun m r =>
           foldl (fun m s =>
                    initializeSeat showtimeId rows basePrice (random r s) r s m)
                 m (seq 1 seatsPerRow))
        m (seq 0 rows).

Definition getSeat (seatCode : string) (m : SeatManager) : option SeatImpl :=
  seats m !! seatCode.

Definition selectSeat (seatCode : string) (m : SeatManager)
  : bool * SeatManager :=
  match seats m !! seatCode with
  | None => (false, m)
  | Some seat =>
      if decide (status seat ≠ AVAILABLE) then (false, m)
      else
        (true,
         mkManager (<[seatCode := set_status SELECTED seat]> (seats m))
                   (Set_add seatCode (selectedSeats m)))
  end.

Definition deselectSeat (seatCode : string) (m : SeatManager)
  : bool * SeatManager :=
  match seats m !! seatCode with
  | None => (false, m)
  | Some seat =>
      if decide (status seat ≠ SELECTED) then (false, m)
      else
        (true,
         mkManager (<[seatCode := set_status AVAILABLE seat]> (seats m))
                   (Set_delete seatCode (selectedSeats m)))
  end.

Definition getSelectedSeats (m : SeatManager) : list SeatImpl :=
  foldl (fun selected code =>
           match seats m !! code with
           | Some seat => selected ++ [seat]
           | None => selected
           end)
        [] (selectedSeats m).

Definition getSelectedSeatsTotal (m : SeatManager) : JS.number :=
  foldl (fun sum seat => (sum + price seat)%Qc) 0%Qc (getSelectedSeats m).

Definition confirmBooking (m : SeatManager) : bool * SeatManager :=
  if Nat.eqb (length (selectedSeats m)) 0 then (false, m)
  else
    let booked :=
      foldl (fun ss code =>
               match ss !! code with
               | Some seat => <[code := set_status BOOKED seat]> ss
               | None => ss
               end)
            (seats m) (selectedSeats m) in
    (true, mkManager booked []).

(** *** The commands

    A command object is its class with its fields; the [seatManager]
    field is the one registry of the [World] below. *)
Inductive SeatCommand : Type :=
| SelectSeatCommand (seatCode : string) (executed : bool)
| DeselectSeatCommand (seatCode : string) (executed : bool)
| SelectMultipleSeatsCommand (seatCodes successfullyCodes : list string)
    (executed : bool).

(** The constructors of the three classes. *)
Definition new_SelectSeatCommand (seatCode : string) : SeatCommand :=
  SelectSeatCommand seatCode false.
Definition new_DeselectSeatCommand (seatCode : string) : SeatCommand :=
  DeselectSeatCommand seatCode false.
Definition new_SelectMultipleSeatsCommand (seatCodes : list string)
  : SeatCommand :=
  SelectMultipleSeatsCommand seatCodes [] false.

(** References to command objects. *)
Definition ref : Type := nat.

Record SeatSelectionInvoker : Type := mkInvoker {
  undoStack : list ref;
  redoStack : list ref;
  maxHistorySize : Z
}.

Definition new_SeatSelectionInvoker (maxHistorySize : option Z)
  : SeatSelectionInvoker :=
  mkInvoker [] [] (default 50 maxHistorySize).

(** The registry, the command objects and the invoker. *)
Record World : Type := mkWorld {
  manager : SeatManager;
  objects : gmap ref SeatCommand;
  invoker : SeatSelectionInvoker
}.

(** [new C(...)]: the object is stored at a reference not in use. *)
Definition new (c : SeatCommand) (w : World) : ref * World :=
  let r := fresh (dom (objects w)) in
  (r, mkWorld (manager w) (<[r := c]> (objects w)) (invoker w)).

(** The loop of [SelectMultipleSeatsCommand.execute]. *)
Definition selectEach (seatCodes : list string) (m : SeatManager)
  : list string * SeatManager :=
  foldl (fun '(successfullyCodes, m) code =>
           let '(ok, m) := selectSeat code m in
           if ok then (successfullyCodes ++ [code], m)
           else (successfullyCodes, m))
        ([], m) seatCodes.

(** The loop of [SelectMultipleSeatsCommand.undo]: last selected first. *)
Definition deselectEach (successfullyCodes : list string) (m : SeatManager)
  : SeatManager :=
  foldl (fun m code => snd (deselectSeat code m)) m (reverse successfullyCodes).

(** [command.execute()] on the object at [r]. *)
Definition execute (r : ref) (w : World) : bool * World :=
  match objects w !! r with
  | None => (false, w)
  | Some (SelectSeatCommand seatCode executed) =>
      if executed then (false, w)
      else
        let '(success, m) := selectSeat seatCode (manager w) in
        if success then
          (true, mkWorld m (<[r := SelectSeatCommand seatCode true]> (objects w))
                   (invoker w))
        else (false, mkWorld m (objects w) (invoker w))
  | Some (DeselectSeatCommand seatCode executed) =>
      if executed then (false, w)
      else
        let '(success, m) := deselectSeat seatCode (manager w) in
        if success then
          (true, mkWorld m (<[r := DeselectSeatCommand seatCode true]> (objects w))
                   (invoker w))
        else (false, mkWorld m (objects w) (invoker w))
  | Some (SelectMultipleSeatsCommand seatCodes _ executed) =>
      if executed then (false, w)
      else
        let '(successfullyCodes, m) := selectEach seatCodes (manager w) in
        let success :=
          Nat.eqb (length successfullyCodes) (length seatCodes) in
        (success,
         mkWorld m
           (<[r := SelectMultipleSeatsCommand seatCodes successfullyCodes true]>
              (objects w))
           (invoker w))
  end.

(** [command.undo()] on the object at [r]. *)
Definition undoCommand (r : ref) (w : World) : bool * World :=
  match objects w !! r with
  | None => (false, w)
  | Some (SelectSeatCommand seatCode executed) =>
      if negb executed then (false, w)
      else
        let '(success, m) := deselectSeat seatCode (manager w) in
        if success then
          (true, mkWorld m (<[r := SelectSeatCommand seatCode false]> (objects w))
                   (invoker w))
        else (false, mkWorld m (objects w) (invoker w))
  | Some (DeselectSeatCommand seatCode executed) =>
      if negb executed then (false, w)
      else
        let '(success, m) := selectSeat seatCode (manager w) in
        if success then
          (true, mkWorld m (<[r := DeselectSeatCommand seatCode false]> (objects w))
                   (invoker w))
        else (false, mkWorld m (objects w) (invoker w))
  | Some (SelectMultipleSeatsCommand seatCodes successfullyCodes executed) =>
      if negb executed then (false, w)
      else
        let m := deselectEach successfullyCodes (manager w) in
        (true,
         mkWorld m
           (<[r := SelectMultipleSeatsCommand seatCodes [] false]> (objects w))
           (invoker w))
  end.

(** *** The invoker: [SeatSelectionInvoker]

    A stack is an array: [push] appends, [pop] takes the last element,
    [shift] drops the first. *)

Definition executeCommand (command : ref) (w : World) : bool * World :=
  let '(success, w) := execute command w in
  if success then
    let undoStack1 := undoStack (invoker w) ++ [command] in
    let undoStack2 :=
      if (maxHistorySize (invoker w) <? Z.of_nat (length undoStack1))
      then tail undoStack1 else undoStack1 in
    (true,
     mkWorld (manager w) (objects w)
       (mkInvoker undoStack2 [] (maxHistorySize (invoker w))))
  else (false, w).

Definition undo (w : World) : bool * World :=
  match last (undoStack (invoker w)) with
  | None => (false, w)
  | Some command =>
      let w :=
        mkWorld (manager w) (objects w)
          (mkInvoker (removelast (undoStack (invoker w)))
             (redoStack (invoker w)) (maxHistorySize (invoker w))) in
      let '(success, w) := undoCommand command w in
      if success then
        (true,
         mkWorld (manager w) (objects w)
           (mkInvoker (undoStack (invoker w))
              (redoStack (invoker w) ++ [command])
              (maxHistorySize (invoker w))))
      else (false, w)
  end.

Definition redo (w : World) : bool * World :=
  match last (redoStack (invoker w)) with
  | None => (false, w)
  | Some command =>
      let w :=
        mkWorld (manager w) (objects w)
          (mkInvoker (undoStack (invoker w))
             (removelast (redoStack (invoker w)))
             (maxHistorySize (invoker w))) in
      let '(success, w) := execute command w in
      if success then
        (true,
         mkWorld (manager w) (objects w)
           (mkInvoker (undoStack (invoker w) ++ [command])
              (redoStack (invoker w))
              (maxHistorySize (invoker w))))
      else (false, w)
  end.

Definition canUndo (w : World) : bool :=
  negb (Nat.eqb (length (undoStack (invoker w))) 0).

Definition canRedo (w : World) : bool :=
  negb (Nat.eqb (length (redoStack (invoker w))) 0).

Definition clearHistory (w : World) : World :=
  mkWorld (manager w) (objects w)
    (mkInvoker [] [] (maxHistorySize (invoker w))).

(** *** The facade: [SeatSelectionController]

    Its registry and its invoker are those of the [World]; each method
    makes a new command object and hands it to the invoker. *)

Definition Controller_selectSeat (seatCode : string) (w : World)
  : bool * World :=
  let '(command, w) := new (new_SelectSeatCommand seatCode) w in
  executeCommand command w.

Definition Controller_deselectSeat (seatCode : string) (w : World)
  : bool * World :=
  let '(command, w) := new (new_DeselectSeatCommand seatCode) w in
  executeCommand command w.

Definition Controller_selectMultipleSeats (seatCodes : list string) (w : World)
  : bool * World :=
  let '(command, w) := new (new_SelectMultipleSeatsCommand seatCodes) w in
  executeCommand command w.

Definition Controller_confirmBooking (w : World) : bool * World :=
  let '(b, m) := confirmBooking (manager w) in
  (b, mkWorld m (objects w) (invoker w)).

(** *** Callers of the registry *)

Inductive Op : Type :=
| OpSelectSeat (seatCode : string)
| OpDeselectSeat (seatCode : string)
| OpConfirmBooking.

Definition op (o : Op) (m : SeatManager) : bool * SeatManager :=
  match o with
  | OpSelectSeat seatCode => selectSeat seatCode m
  | OpDeselectSeat seatCode => deselectSeat seatCode m
  | OpConfirmBooking => confirmBooking m
  end.

(** Operations are run one after the other, the first of the list first. *)
Definition ops (os : list Op) (m : SeatManager) : SeatManager :=
  foldl (fun m o => snd (op o m)) m os.

(** The sum of a list of numbers. *)
Definition sum (l : list JS.number) : JS.number := foldr Qcplus 0%Qc l.

(** The prices of the seats of the registry whose status is SELECTED,
    added up. *)
Definition selectedStatusTotal (m : SeatManager) : JS.number :=
  sum ((fun kv => price kv.2) <$>
         filter (fun kv : string * SeatImpl => status kv.2 = SELECTED)
           (map_to_list (seats m))).

(** The price of the seat with code [seatCode]; 0 when there is none. *)
Definition priceOf (m : SeatManager) (seatCode : string) : JS.number :=
  from_option price 0%Qc (seats m !! seatCode).

(** No seat is selected: the state in which [initializeSeats] leaves a new
    registry. *)
Definition noneSelected (m : SeatManager) : Prop :=
  selectedSeats m = [] /\
  forall code seat, seats m !! code = Some seat -> status seat <> SELECTED.

(** The selected-seats set holds each code once, and holds exactly the
    codes of the seats whose status is SELECTED. *)
Definition consistent (m : SeatManager) : Prop :=
  NoDup (selectedSeats m) /\
  forall code : string,
    code ∈ selectedSeats m <->
    exists seat, seats m !! code = Some seat /\ status seat = SELECTED.

(** *** Callers of the invoker *)

(** [executeCommand] on each command in turn, with the value each call
    returns. *)
Fixpoint executeCommands (commands : list ref) (w : World) : list bool * World :=
  match commands with
  | [] => ([], w)
  | command :: commands =>
      let '(b, w) := executeCommand command w in
      let '(bs, w) := executeCommands commands w in
      (b :: bs, w)
  end.

(** [undo()] called [n] times, with the value each call returns. *)
Fixpoint undoTimes (n : nat) (w : World) : list bool * World :=
  match n with
  | O => ([], w)
  | S n =>
      let '(b, w) := undo w in
      let '(bs, w) := undoTimes n w in
      (b :: bs, w)
  end.

(** The command at [r] is a single-seat select command for [seatCode]. *)
Definition selectsSeat (w : World) (r : ref) (seatCode : string) : Prop :=
  exists executed, objects w !! r = Some (SelectSeatCommand seatCode executed).

(** *** Registries and worlds used as examples *)

(** A registry initialised with no seat booked in advance. *)
Definition freshRegistry (rows seatsPerRow : nat) : SeatManager :=
  initializeSeats (fun _ _ => false) "SHW-1" rows seatsPerRow (JS.of_Z 50000)
    new_SeatManager.

(** The 5 by 5 registry in which the draw booked seat A2 in advance. *)
Definition registryA2Booked : SeatManager :=
  initializeSeats (fun r s => bool_decide (r = 0%nat /\ s = 2%nat)) "SHW-1" 5 5
    (JS.of_Z 50000) new_SeatManager.

(** A world with registry [m], the command objects [cs] at references
    0, 1, ... and a new invoker. *)
Definition worldOf (m : SeatManager) (cs : list SeatCommand)
    (maxHistorySize : option Z) : World :=
  mkWorld m (list_to_map (zip (seq 0 (length cs)) cs))
    (new_SeatSelectionInvoker maxHistorySize).

(** The new 5 by 5 registry with a select command for A1 and one for Z9,
    a seat that does not exist. *)
Definition worldA1Z9 : World :=
  worldOf (freshRegistry 5 5)
    [new_SelectSeatCommand "A1"; new_SelectSeatCommand "Z9"] None.

(** The registry with A2 booked, and a batch asking for A1, A2 and A3. *)
Definition worldBatch : World :=
  worldOf registryA2Booked
    [new_SelectMultipleSeatsCommand ["A1"; "A2"; "A3"]] None.

(** The new 5 by 5 registry with select commands for A1 and A2; the
    invoker is constructed with [maxHistorySize]. *)
Definition worldA1A2 (maxHistorySize : option Z) : World :=
  worldOf (freshRegistry 5 5)
    [new_SelectSeatCommand "A1"; new_SelectSeatCommand "A2"] maxHistorySize.

(** The codes of the first [n] seats of the 10 by 15 registry, row by
    row: A1 ... A15, B1 ... *)
Definition firstCodes (n : nat) : list string :=
  take n (r ← seq 0 10; s ← seq 1 15; [template (rowLabel r) +:+ pretty s]).

(** The registry and the invoker with the defaults of the controller (10
    rows of 15 seats, a history of 50 commands), and a select command for
    each of the first [n] seats. *)
Definition worldDefaults (n : nat) : World :=
  worldOf (freshRegistry 10 15) (new_SelectSeatCommand <$> firstCodes n) None.

(** A registry initialised a second time while A1 was selected:
    [initializeSeats] replaces the seats and keeps the selected-seats
    set. *)
Definition registryInitializedTwice : SeatManager :=
  initializeSeats (fun _ _ => false) "SHW-2" 5 5 (JS.of_Z 50000)
    (snd (selectSeat "A1" (freshRegistry 5 5))).

(** *** Notions used to state further properties *)

(** Two entries of the seat map that differ in the status at most. *)
Definition sameButStatus (before after : option SeatImpl) : Prop :=
  match before, after with
  | None, None => True
  | Some s, Some s' => exists st, s' = set_status st s
  | _, _ => False
  end.

(** Every seat is stored under its own code. *)
Definition keyed (m : SeatManager) : Prop :=
  forall code seat, seats m !! code = Some seat -> getCode seat = code.

(** The key under which [initializeSeats] stores the seat of row index [r]
    and number [s]. *)
Definition gridCode (r s : nat) : string := template (rowLabel r) +:+ pretty s.

(** The seat [initializeSeats] makes for row index [r] and number [s]. *)
Definition gridSeat (random : nat -> nat -> bool) (showtimeId : string)
    (rows : nat) (basePrice : JS.number) (r s : nat) : SeatImpl :=
  let seatType := if (Z.of_nat rows - 2 <=? Z.of_nat r) then VIP else REGULAR in
  mkSeat (showtimeId +:+ "-" +:+ gridCode r s) (rowLabel r) s seatType
    (if random r s then BOOKED else AVAILABLE)
    (match seatType with
     | VIP => (basePrice * JS.lit_1_5)%Qc
     | _ => basePrice
     end).

(** The pairs of row index and seat number in the order in which the two
    loops of [initializeSeats] visit them. *)
Definition gridPairs (rows seatsPerRow : nat) : list (nat * nat) :=
  seq 0 rows ≫= fun r => (fun s => (r, s)) <$> seq 1 seatsPerRow.

(** The [executed] field of a command object. *)
Definition isExecuted (c : SeatCommand) : bool :=
  match c with
  | SelectSeatCommand _ executed => executed
  | DeselectSeatCommand _ executed => executed
  | SelectMultipleSeatsCommand _ _ executed => executed
  end.

(** A call of a method of the invoker that can change the history. *)
Inductive InvokerCall : Type :=
| CallExecuteCommand (command : ref)
| CallUndo
| CallRedo
| CallClearHistory.

Definition invokerCall (k : InvokerCall) (w : World) : World :=
  match k with
  | CallExecuteCommand command => snd (executeCommand command w)
  | CallUndo => snd (undo w)
  | CallRedo => snd (redo w)
  | CallClearHistory => clearHistory w
  end.

Definition invokerCalls (ks : list InvokerCall) (w : World) : World :=
  foldl (fun w k => invokerCall k w) w ks.

(** The two stacks together hold no more commands than the history size
    allows. *)
Definition historyBounded (w : World) : Prop :=
  Z.of_nat (length (undoStack (invoker w)) + length (redoStack (invoker w)))
  ≤ Z.max 0 (maxHistorySize (invoker w)).

End SeatSelection.

(** ** The real subject of the seat-availability proxy

    [RealSeatAvailabilityService] in src/seat/SeatLayout.ts.  The busy wait
    of [simulateDatabaseAccess] changes nothing and is not modelled.
    [random showtimeId r s] is the outcome of [Math.random() < 0.2] for the
    seat of row index [r] and number [s] when the seats of a showtime are
    made; a showtime is initialised once at most. *)

Module SeatAvailability.

Import Seat SeatSelection.

(** [seatData]: the matrix of seats of each showtime. *)
Record RealSeatAvailabilityService : Type := mkService {
  seatData : gmap string (list (list SeatImpl))
}.

Definition new_RealSeatAvailabilityService : RealSeatAvailabilityService :=
  mkService ∅.

(** The matrix [initializeShowtime] builds: 10 rows of 15 seats. *)
Definition seatMatrix (random : string -> nat -> nat -> bool)
    (showtimeId : string) : list (list SeatImpl) :=
  let rows := 10%nat in
  let seatsPerRow := 15%nat in
  (fun r =>
     (fun s =>
        let seatType :=
          if (Z.of_nat rows - 2 <=? Z.of_nat r) then VIP else REGULAR in
        let price :=
          match seatType with
          | VIP => JS.of_Z 75000
          | _ => JS.of_Z 50000
          end in
        mkSeat (showtimeId +:+ "-" +:+ template (rowLabel r) +:+ pretty s)
          (rowLabel r) s seatType
          (if random showtimeId r s then BOOKED else AVAILABLE) price)
     <$> seq 1 seatsPerRow)
  <$> seq 0 rows.

Definition initializeShowtime (random : string -> nat -> nat -> bool)
    (showtimeId : string) (sv : RealSeatAvailabilityService)
  : RealSeatAvailabilityService :=
  match seatData sv !! showtimeId with
  | Some _ => sv
  | None => mkService (<[showtimeId := seatMatrix random showtimeId]> (seatData sv))
  end.

(** The two loops of [findSeat]: the first seat with the code, row by
    row. *)
Fixpoint findInRow (seatCode : string) (row : list SeatImpl) : option SeatImpl :=
  match row with
  | [] => None
  | seat :: row =>
      if decide (getCode seat = seatCode) then Some seat
      else findInRow seatCode row
  end.

Fixpoint findInRows (seatCode : string) (rows : list (list SeatImpl))
  : option SeatImpl :=
  match rows with
  | [] => None
  | row :: rows =>
      match findInRow seatCode row with
      | Some seat => Some seat
      | None => findInRows seatCode rows
      end
  end.

(** An assignment to a field of the object [findSeat] returned: the
    change [f] made to the first seat with the code. *)
Fixpoint updateInRow (seatCode : string) (f : SeatImpl -> SeatImpl)
    (row : list SeatImpl) : list SeatImpl :=
  match row with
  | [] => []
  | seat :: row =>
      if decide (getCode seat = seatCode) then f seat :: row
      else seat :: updateInRow seatCode f row
  end.

Fixpoint updateInRows (seatCode : string) (f : SeatImpl -> SeatImpl)
    (rows : list (list SeatImpl)) : list (list SeatImpl) :=
  match rows with
  | [] => []
  | row :: rows =>
      match findInRow seatCode row with
      | Some _ => updateInRow seatCode f row :: rows
      | None => row :: updateInRows seatCode f rows
      end
  end.

(** [this.seatData.get(showtimeId) || []] *)
Definition matrixOf (showtimeId : string) (sv : RealSeatAvailabilityService)
  : list (list SeatImpl) :=
  default [] (seatData sv !! showtimeId).

Definition findSeat (random : string -> nat -> nat -> bool)
    (showtimeId seatCode : string) (sv : RealSeatAvailabilityService)
  : option SeatImpl * RealSeatAvailabilityService :=
  let sv := initializeShowtime random showtimeId sv in
  (findInRows seatCode (matrixOf showtimeId sv), sv).

(** The assignment [seat.status = st] on the seat [findSeat] returned for
    [seatCode]. *)
Definition assignStatus (showtimeId seatCode : string) (st : SeatStatus)
    (sv : RealSeatAvailabilityService) : RealSeatAvailabilityService :=
  mkService
    (alter (updateInRows seatCode (set_status st)) showtimeId (seatData sv)).

Definition isSeatAvailable (random : string -> nat -> nat -> bool)
    (showtimeId seatCode : string) (sv : RealSeatAvailabilityService)
  : bool * RealSeatAvailabilityService :=
  let '(seat, sv) := findSeat random showtimeId seatCode sv in
  (match seat with
   | Some seat => bool_decide (status seat = AVAILABLE)
   | None => false
   end, sv).

Definition selectSeat (random : string -> nat -> nat -> bool)
    (showtimeId seatCode : string) (sv : RealSeatAvailabilityService)
  : bool * RealSeatAvailabilityService :=
  let '(seat, sv) := findSeat random showtimeId seatCode sv in
  match seat with
  | Some seat =>
      if decide (status seat = AVAILABLE)
      then (true, assignStatus showtimeId seatCode SELECTED sv)
      else (false, sv)
  | None => (false, sv)
  end.

Definition deselectSeat (random : string -> nat -> nat -> bool)
    (showtimeId seatCode : string) (sv : RealSeatAvailabilityService)
  : bool * RealSeatAvailabilityService :=
  let '(seat, sv) := findSeat random showtimeId seatCode sv in
  match seat with
  | Some seat =>
      if decide (status seat = SELECTED)
      then (true, assignStatus showtimeId seatCode AVAILABLE sv)
      else (false, sv)
  | None => (false, sv)
  end.

(** The first loop of [confirmBooking]: false at the first code whose seat
    is missing or not SELECTED. *)
Fixpoint verifySelected (random : string -> nat -> nat -> bool)
    (showtimeId : string) (seatCodes : list string)
    (sv : RealSeatAvailabilityService) : bool * RealSeatAvailabilityService :=
  match seatCodes with
  | [] => (true, sv)
  | code :: seatCodes =>
      let '(seat, sv) := findSeat random showtimeId code sv in
      match seat with
      | Some seat =>
          if decide (status seat ≠ SELECTED) then (false, sv)
          else verifySelected random showtimeId seatCodes sv
      | None => (false, sv)
      end
  end.

(** The second loop of [confirmBooking]. *)
Definition bookEach (random : string -> nat -> nat -> bool)
    (showtimeId : string) (seatCodes : list string)
    (sv : RealSeatAvailabilityService) : RealSeatAvailabilityService :=
  foldl (fun sv code =>
           let '(seat, sv) := findSeat random showtimeId code sv in
           match seat with
           | Some _ => assignStatus showtimeId code BOOKED sv
           | None => sv
           end)
        sv seatCodes.

Definition confirmBooking (random : string -> nat -> nat -> bool)
    (showtimeId : string) (seatCodes : list string)
    (sv : RealSeatAvailabilityService) : bool * RealSeatAvailabilityService :=
  let '(ok, sv) := verifySelected random showtimeId seatCodes sv in
  if ok then (true, bookEach random showtimeId seatCodes sv)
  else (false, sv).

(** The service after a showtime was initialised with no seat booked in
    advance and the seats [seatCodes] were selected. *)
Definition serviceWithSelected (showtimeId : string) (seatCodes : list string)
  : RealSeatAvailabilityService :=
  foldl (fun sv code => snd (selectSeat (fun _ _ _ => false) showtimeId code sv))
    new_RealSeatAvailabilityService seatCodes.

End SeatAvailability.

(** * Properties of the booking lifecycle *)

Module BookingStatusSpec.

Import BookingStatus.

Lemma ltb_lt (a b : JS.number) : JS.ltb a b = true <-> (a < b)%Qc.
Proof.
  unfold JS.ltb. rewrite Qclt_alt.
  destruct (a ?= b)%Qc; split; congruence.
Qed.

Lemma ltb_ge (a b : JS.number) : JS.ltb a b = false <-> (b ≤ a)%Qc.
Proof.
  rewrite Qcle_ngt, <- ltb_lt. destruct (JS.ltb a b); split; congruence.
Qed.

(** [Math.round x] is the integer [r] with [r <= x + 1/2 < r + 1]. *)
Lemma Math_round_bounds (x : JS.number) :
  (JS.of_Z (JS.Math_round x) ≤ x + JS.lit_0_5)%Qc /\
  (x + JS.lit_0_5 < JS.of_Z (JS.Math_round x + 1))%Qc.
Proof.
  unfold JS.Math_round, JS.of_Z, Qcle, Qclt.
  split; [apply Qfloor_le | apply Qlt_floor].
Qed.

(** On a whole number [Math.round] changes nothing. *)
Lemma Math_round_of_Z (k : Z) : JS.Math_round (JS.of_Z k) = k.
Proof.
  destruct (Math_round_bounds (JS.of_Z k)) as [Hle Hlt].
  set (r := JS.Math_round (JS.of_Z k)) in *.
  assert (Hhalf : ((JS.of_Z k + JS.lit_0_5)%Qc == inject_Z k + (1 # 2))%Q).
  { unfold JS.of_Z, Qc_of_Z, Qcplus, Q2Qc; simpl this.
    rewrite Qred_correct. reflexivity. }
  unfold Qcle, Qclt in Hle, Hlt.
  rewrite Hhalf in Hle, Hlt.
  unfold Qle, Qlt, JS.of_Z in Hle, Hlt; simpl in Hle, Hlt. lia.
Qed.


Lemma of_Z_eq (a b : Z) : a = b -> JS.of_Z a = JS.of_Z b.
Proof. congruence. Qed.

(** C1.  In the Pending state, [pay] with an amount below the running total
    leaves the whole booking (state and paid amount included) as it is;
    with an amount of at least the running total it moves the booking to
    Paid, records the amount as the paid amount and sets a transaction
    reference. *)
Theorem pay_pending (now : string) (amount : JS.number) (c : BookingContext) :
  state c = PendingState ->
  ((amount < totalAmount c)%Qc ->
     pay now amount c = c /\
     state (pay now amount c) = PendingState /\
     paidAmount (pay now amount c) = paidAmount c) /\
  ((totalAmount c ≤ amount)%Qc ->
     state (pay now amount c) = PaidState /\
     paidAmount (pay now amount c) = amount /\
     transactionId (pay now amount c) = Some ("TXN-" +:+ now)).
Proof.
  intros Hs. unfold pay, State_pay, getTotalAmount. rewrite Hs. split.
  - intros Hlt. apply ltb_lt in Hlt. rewrite Hlt. auto.
  - intros Hge. apply ltb_ge in Hge. rewrite Hge. cbn. auto.
Qed.

Lemma pay_pending_witness :
  state (pay "LX2F3K9A" (JS.of_Z 40000) (one_seat 50000)) = PendingState /\
  state (pay "LX2F3K9A" (JS.of_Z 50000) (one_seat 50000)) = PaidState.
Proof.
  pose proof (pay_pending "LX2F3K9A" (JS.of_Z 40000) (one_seat 50000) eq_refl)
    as [Hlow _].
  pose proof (pay_pending "LX2F3K9A" (JS.of_Z 50000) (one_seat 50000) eq_refl)
    as [_ Hhigh].
  split.
  - apply Hlow. vm_compute. reflexivity.
  - apply Hhigh. vm_compute. discriminate.
Defined.

(** C2, as the code has it.  [refund] from Paid prints the whole paid
    amount; [refund] from Confirmed prints 80% of the paid amount rounded
    to the nearest whole number (a tie going up), which is 80% itself
    whenever that is a whole number.  Both move the booking to Cancelled. *)
Theorem refund_amount (c : BookingContext) :
  state c = PaidState \/ state c = ConfirmedState ->
  exists printed : JS.number,
    refund c = (setState CancelledState c, Some printed) /\
    state (fst (refund c)) = CancelledState /\
    (state c = PaidState -> printed = paidAmount c) /\
    (state c = ConfirmedState ->
       exists r : Z,
         printed = JS.of_Z r /\
         (JS.of_Z r ≤ paidAmount c * JS.lit_0_8 + JS.lit_0_5)%Qc /\
         (paidAmount c * JS.lit_0_8 + JS.lit_0_5 < JS.of_Z (r + 1))%Qc /\
         (forall k : Z, (paidAmount c * JS.lit_0_8)%Qc = JS.of_Z k -> r = k)).
Proof.
  intros [Hs | Hs]; unfold refund, State_refund, getPaidAmount; rewrite Hs.
  - eexists. split; [reflexivity |]. cbn.
    split; [reflexivity |]. split; [reflexivity | discriminate].
  - eexists. split; [reflexivity |]. cbn.
    split; [reflexivity |]. split; [discriminate |].
    intros _. exists (JS.Math_round (paidAmount c * JS.lit_0_8)%Qc).
    split; [reflexivity |].
    destruct (Math_round_bounds (paidAmount c * JS.lit_0_8)%Qc) as [Hle Hlt].
    repeat split; [exact Hle | exact Hlt |].
    intros k Hk. rewrite Hk. apply Math_round_of_Z.
Qed.

Lemma refund_amount_witness :
  snd (refund (one_seat_paid 50000)) = Some (JS.of_Z 50000) /\
  snd (refund (one_seat_confirmed 50000)) = Some (JS.of_Z 40000).
Proof.
  split.
  - destruct (refund_amount (one_seat_paid 50000) (or_introl eq_refl))
      as (printed & Heq & _ & Hpaid & _).
    rewrite Heq. cbn [snd]. rewrite (Hpaid eq_refl). reflexivity.
  - destruct (refund_amount (one_seat_confirmed 50000) (or_intror eq_refl))
      as (printed & Heq & _ & _ & Hconf).
    rewrite Heq. cbn [snd].
    destruct (Hconf eq_refl) as (r & -> & _ & _ & Hexact).
    f_equal. apply of_Z_eq. apply Hexact.
    apply Qc_is_canon. vm_compute. reflexivity.
Defined.

(** C2, as the claim states it, fails: a booking paid 50001 and then
    confirmed is refunded 40001, and 80% of 50001 is 40000.8. *)
Lemma refund_confirmed_not_80_percent :
  state (one_seat_confirmed 50001) = ConfirmedState /\
  paidAmount (one_seat_confirmed 50001) = JS.of_Z 50001 /\
  snd (refund (one_seat_confirmed 50001)) = Some (JS.of_Z 40001) /\
  snd (refund (one_seat_confirmed 50001))
    <> Some (paidAmount (one_seat_confirmed 50001) * JS.lit_0_8)%Qc.
Proof.
  split; [reflexivity |].
  split; [apply Qc_is_canon; vm_compute; reflexivity |].
  split; [reflexivity |].
  intros H.
  apply (f_equal (fun o => match o with Some q => this q | None => 0%Q end)) in H.
  vm_compute in H. discriminate.
Qed.


(** C6.  In the Completed and in the Cancelled state each of the seven
    operations leaves the whole booking as it is: state, line items,
    running total, paid amount and transition log; [refund] prints no
    amount. *)
Theorem terminal_noop (k : Call) (c : BookingContext) :
  state c = CompletedState \/ state c = CancelledState ->
  lifecycle k = true ->
  call k c = c /\ refund c = (c, None).
Proof.
  intros Hs Hk. split.
  - destruct k; try discriminate Hk; cbn;
      unfold addSeat, proceedToPayment, pay, confirm, complete, cancel, refund,
        State_addSeat;
      destruct Hs as [-> | ->]; reflexivity.
  - unfold refund. destruct Hs as [-> | ->]; reflexivity.
Qed.

Lemma terminal_noop_witness :
  call CallCancel (call CallComplete (one_seat_confirmed 50000))
  = call CallComplete (one_seat_confirmed 50000).
Proof.
  apply (terminal_noop CallCancel (call CallComplete (one_seat_confirmed 50000))).
  - left. reflexivity.
  - reflexivity.
Defined.

(** C7.  Outside Draft, [addSeat] leaves the whole booking as it is (line
    items, running total and state included).  In Draft it appends the
    seat code, adds the price to the running total and stays in Draft; for
    a price that is not negative the running total does not decrease. *)
Theorem addSeat_frame (seatCode : string) (price : JS.number)
    (c : BookingContext) :
  (state c <> DraftState -> addSeat seatCode price c = c) /\
  (state c = DraftState ->
     state (addSeat seatCode price c) = DraftState /\
     seats (addSeat seatCode price c) = seats c ++ [seatCode] /\
     totalAmount (addSeat seatCode price c) = (totalAmount c + price)%Qc /\
     ((0 ≤ price)%Qc ->
        (totalAmount c ≤ totalAmount (addSeat seatCode price c))%Qc)).
Proof.
  unfold addSeat, State_addSeat. split.
  - intros Hs. destruct (state c); try reflexivity. congruence.
  - intros ->. cbn. repeat split.
    intros Hp. apply (Qcplus_le_mono_l _ _ (totalAmount c)) in Hp.
    rewrite Qcplus_0_r in Hp. exact Hp.
Qed.

Lemma addSeat_frame_witness :
  addSeat "A2" (JS.of_Z 50000) (one_seat_paid 50000) = one_seat_paid 50000 /\
  seats (addSeat "A2" (JS.of_Z 50000) (new_BookingContext "BKG-GENERATED" "John Doe" "Avatar 2" None))
  = ["A2"].
Proof.
  split.
  - apply (addSeat_frame "A2" (JS.of_Z 50000) (one_seat_paid 50000)).
    discriminate.
  - apply (addSeat_frame "A2" (JS.of_Z 50000)
             (new_BookingContext "BKG-GENERATED" "John Doe" "Avatar 2" None)).
    reflexivity.
Defined.

(** *** The transition log *)

Lemma endpoint_snoc (prev : string) (log : list StateHistoryEntry)
    (e : StateHistoryEntry) :
  endpoint prev (log ++ [e]) = toState e.
Proof. unfold endpoint. rewrite foldl_app. reflexivity. Qed.

Lemma chained_snoc (prev : string) (log : list StateHistoryEntry)
    (e : StateHistoryEntry) :
  chained prev log -> fromState e = endpoint prev log ->
  chained prev (log ++ [e]).
Proof.
  revert prev. induction log as [| e0 log IH]; intros prev Hc He; cbn in *.
  - auto.
  - destruct Hc as [Hfrom Hc]. split; [exact Hfrom |].
    apply IH; [exact Hc |]. rewrite He. reflexivity.
Qed.

Lemma chained_lookup (prev : string) (log : list StateHistoryEntry) (i : nat)
    (e1 e2 : StateHistoryEntry) :
  chained prev log -> log !! i = Some e1 -> log !! S i = Some e2 ->
  fromState e2 = toState e1.
Proof.
  revert prev i. induction log as [| e0 log IH]; intros prev i Hc H1 H2.
  - discriminate.
  - destruct Hc as [_ Hc]. destruct i as [| i]; cbn in H1, H2.
    + injection H1 as ->. destruct log as [| e log]; [discriminate |].
      cbn in H2. injection H2 as ->. apply Hc.
    + eapply IH; eassumption.
Qed.

Lemma log_inv_new (generated customerName movieTitle : string)
    (bookingId : option string) :
  log_inv (new_BookingContext generated customerName movieTitle bookingId).
Proof. exists []. cbn. auto. Qed.

Lemma log_inv_setState (s : BookingState) (c : BookingContext) :
  log_inv c -> log_inv (setState s c).
Proof.
  intros (rest & Hlog & Hc & He).
  exists (rest ++ [mkEntry (getName (state c)) (getName s)]).
  unfold setState, logStateChange; cbn. rewrite Hlog. split; [reflexivity |].
  split.
  - apply chained_snoc; [exact Hc |]. cbn. symmetry. exact He.
  - apply endpoint_snoc.
Qed.

Lemma log_inv_call (k : Call) (c : BookingContext) :
  log_inv c -> log_inv (call k c).
Proof.
  intros Hinv.
  destruct k; cbn;
    unfold addSeat, proceedToPayment, pay, confirm, complete, cancel, refund,
      State_addSeat, State_proceedToPayment, State_pay, State_confirm,
      State_complete, State_cancel, State_refund;
    try (destruct (state c) eqn:Hs; cbn;
         repeat match goal with |- context [if ?b then _ else _] => destruct b end;
         try exact Hinv; try (apply log_inv_setState; exact Hinv)).
  all: try (apply log_inv_setState; exact Hinv).
  all: try (destruct Hinv as (rest & Hlog & Hc & He); exists rest; cbn;
            rewrite ?Hs in *; auto).
Qed.

Lemma log_inv_calls (ks : list Call) (c : BookingContext) :
  log_inv c -> log_inv (calls ks c).
Proof.
  revert c. induction ks as [| k ks IH]; intros c Hinv; cbn.
  - exact Hinv.
  - apply IH, log_inv_call, Hinv.
Qed.

(** C10.  Whatever calls are made on a booking after its construction, the
    first entry of its transition log goes from 'Initial' to 'Draft', and
    each later entry starts in the state in which the entry before it
    ends. *)
Theorem history_chain (generated customerName movieTitle : string)
    (bookingId : option string) (ks : list Call) :
  let c :=
    calls ks (new_BookingContext generated customerName movieTitle bookingId) in
  stateHistory c !! 0%nat = Some (mkEntry "Initial" "Draft") /\
  forall (i : nat) (e1 e2 : StateHistoryEntry),
    stateHistory c !! i = Some e1 -> stateHistory c !! S i = Some e2 ->
    fromState e2 = toState e1.
Proof.
  intros c.
  destruct (log_inv_calls ks _
              (log_inv_new generated customerName movieTitle bookingId))
    as (rest & Hlog & Hc & _).
  fold c in Hlog. rewrite Hlog. split; [reflexivity |].
  intros i e1 e2. apply (chained_lookup "Initial"). cbn. auto.
Qed.

Lemma history_chain_witness :
  fromState (mkEntry "Pending" "Paid") = toState (mkEntry "Draft" "Pending").
Proof.
  apply (history_chain "BKG-GENERATED" "John Doe" "Avatar 2" None
           [CallAddSeat "A1" (JS.of_Z 50000); CallProceedToPayment;
            CallPay "LX2F3K9A" (JS.of_Z 40000);
            CallPay "LX2F3K9B" (JS.of_Z 50000);
            CallConfirm; CallComplete; CallCancel]) with (i := 1%nat);
    reflexivity.
Defined.

(** The scenario of the lifecycle: one seat of 50000, on to payment, 40000
    is not enough, 50000 pays, then confirm and complete; a later cancel
    changes nothing. *)
Lemma lifecycle_scenario :
  let c0 := new_BookingContext "BKG-GENERATED" "John Doe" "Avatar 2" None in
  let c1 := proceedToPayment (addSeat "A1" (JS.of_Z 50000) c0) in
  let c2 := pay "LX2F3K9A" (JS.of_Z 40000) c1 in
  let c3 := pay "LX2F3K9B" (JS.of_Z 50000) c2 in
  let c4 := confirm c3 in
  let c5 := complete c4 in
  getStateName c0 = "Draft" /\ getStateName c1 = "Pending" /\
  getStateName c2 = "Pending" /\ getStateName c3 = "Paid" /\
  getStateName c4 = "Confirmed" /\ getStateName c5 = "Completed" /\
  cancel c5 = c5 /\
  stateHistory c5 =
    [mkEntry "Initial" "Draft"; mkEntry "Draft" "Pending";
     mkEntry "Pending" "Paid"; mkEntry "Paid" "Confirmed";
     mkEntry "Confirmed" "Completed"].
Proof. cbv zeta. repeat apply conj; vm_compute; reflexivity. Qed.

(** *** Further properties of the lifecycle *)

Ltac unfold_calls :=
  unfold addSeat, proceedToPayment, pay, confirm, complete, cancel, refund,
    State_addSeat, State_proceedToPayment, State_pay, State_confirm,
    State_complete, State_cancel, State_refund.

Ltac split_ifs :=
  repeat match goal with
         | |- context [if ?b then _ else _] => destruct b eqn:?
         end.

(** X1.  A lifecycle operation leaves the state where it is or moves it
    along an arrow of the state machine diagram of the source file. *)
Theorem lifecycle_follows_diagram (k : Call) (c : BookingContext) :
  lifecycle k = true ->
  state (call k c) = state c \/ diagram (state c) (state (call k c)) = true.
Proof.
  intros Hk.
  destruct k; try discriminate Hk; cbn; unfold_calls;
    destruct (state c) eqn:Hs; cbn; split_ifs; cbn; rewrite ?Hs; auto.
Qed.

Lemma lifecycle_follows_diagram_witness :
  diagram PendingState (state (call (CallPay "LX2F3K9A" (JS.of_Z 50000))
                                 (one_seat 50000))) = true.
Proof.
  destruct (lifecycle_follows_diagram (CallPay "LX2F3K9A" (JS.of_Z 50000))
              (one_seat 50000) eq_refl) as [H | H].
  - vm_compute in H. discriminate H.
  - exact H.
Defined.

Lemma payment_inv_call (k : Call) (c : BookingContext) :
  lifecycle k = true -> payment_inv c -> payment_inv (call k c).
Proof.
  intros Hk. unfold payment_inv.
  destruct k; try discriminate Hk; cbn; unfold_calls;
    destruct (state c) eqn:Hs; cbn; split_ifs; cbn; rewrite ?Hs; auto.
  - intros [Hp Ht]. repeat split; auto.
    unfold getSeats in *. destruct (seats c); [discriminate | discriminate].
  - intros (Hp & Ht & Hseats). repeat split; eauto.
Qed.

(** X2.  On a booking driven through its lifecycle operations from the
    constructor: in Draft and Pending the paid amount is 0 and there is
    no transaction id; in Paid, Confirmed and Completed the test of the
    guard of [pay], paid amount [<] running total, is false, and a
    transaction id is set; and from Pending on (Cancelled apart) the
    booking has at least one seat. *)
Theorem payment_invariant (generated customerName movieTitle : string)
    (bookingId : option string) (ks : list Call) :
  Forall (fun k => lifecycle k = true) ks ->
  payment_inv
    (calls ks (new_BookingContext generated customerName movieTitle bookingId)).
Proof.
  intros Hks. unfold calls.
  set (c0 := new_BookingContext generated customerName movieTitle bookingId).
  assert (H0 : payment_inv c0) by (cbn; auto).
  clearbody c0. revert c0 H0.
  induction Hks as [| k ks Hk _ IH]; intros c0 H0; cbn.
  - exact H0.
  - apply IH, payment_inv_call; assumption.
Qed.

Lemma payment_invariant_witness :
  payment_inv
    (calls [CallAddSeat "A1" (JS.of_Z 50000); CallProceedToPayment;
            CallPay "LX2F3K9A" (JS.of_Z 60000); CallConfirm]
       (new_BookingContext "BKG-GENERATED" "John Doe" "Avatar 2" None)).
Proof. apply payment_invariant. repeat constructor. Defined.

Lemma left_draft_call (k : Call) (c : BookingContext) :
  lifecycle k = true -> state c <> DraftState ->
  state (call k c) <> DraftState /\
  seats (call k c) = seats c /\
  totalAmount (call k c) = totalAmount c.
Proof.
  intros Hk.
  destruct k; try discriminate Hk; cbn; unfold_calls;
    destruct (state c) eqn:Hs; cbn; split_ifs; cbn; rewrite ?Hs;
    intros Hd; repeat split; try congruence; try discriminate.
Qed.

(** X3.  Once a booking has left Draft, no sequence of lifecycle
    operations brings it back to Draft or changes its line items or its
    running total. *)
Theorem line_items_frozen (ks : list Call) (c : BookingContext) :
  Forall (fun k => lifecycle k = true) ks ->
  state c <> DraftState ->
  state (calls ks c) <> DraftState /\
  seats (calls ks c) = seats c /\
  totalAmount (calls ks c) = totalAmount c.
Proof.
  intros Hks. revert c. unfold calls.
  induction Hks as [| k ks Hk _ IH]; intros c Hd; cbn.
  - auto.
  - destruct (left_draft_call k c Hk Hd) as (Hd' & Hseats & Htotal).
    destruct (IH _ Hd') as (Hd'' & Hseats' & Htotal').
    repeat split; congruence.
Qed.

Lemma line_items_frozen_witness :
  seats (calls [CallAddSeat "A2" (JS.of_Z 50000); CallConfirm;
                CallAddSeat "A3" (JS.of_Z 50000)] (one_seat_paid 50000))
  = ["A1"].
Proof.
  destruct (line_items_frozen
              [CallAddSeat "A2" (JS.of_Z 50000); CallConfirm;
               CallAddSeat "A3" (JS.of_Z 50000)] (one_seat_paid 50000))
    as (_ & Hseats & _).
  - repeat constructor.
  - discriminate.
  - rewrite Hseats. reflexivity.
Defined.

(** X4.  The four query flags tell what the operations do: [cancel] moves
    to Cancelled when [canCancel] holds and does nothing otherwise;
    [refund] moves to Cancelled and prints an amount when [canRefund]
    holds and does nothing otherwise; [pay] does nothing unless [canPay]
    holds, and then moves to Paid exactly when the amount covers the
    running total; [addSeat] appends the seat exactly when [canModify]
    holds. *)
Theorem flags_tell_operations (now seatCode : string) (amount : JS.number)
    (c : BookingContext) :
  (if canCancel (state c) then state (cancel c) = CancelledState
   else cancel c = c) /\
  (if canRefund (state c)
   then state (fst (refund c)) = CancelledState /\ is_Some (snd (refund c))
   else refund c = (c, None)) /\
  (if canPay (state c)
   then state (pay now amount c)
        = if JS.ltb amount (totalAmount c) then state c else PaidState
   else pay now amount c = c) /\
  (if canModify (state c)
   then seats (addSeat seatCode amount c) = seats c ++ [seatCode]
   else addSeat seatCode amount c = c).
Proof.
  unfold_calls. unfold getTotalAmount.
  destruct (state c) eqn:Hs; cbn; rewrite ?Hs; repeat split; eauto.
  destruct (JS.ltb amount (totalAmount c)); cbn; auto.
Qed.

(** X5.  [proceedToPayment] moves a Draft booking with at least one seat to
    Pending, logging the transition and keeping seats and total; on a
    Draft booking without a seat, and in every other state, it does
    nothing. *)
Theorem proceedToPayment_needs_seat (c : BookingContext) :
  (state c = DraftState -> seats c <> [] ->
     proceedToPayment c = setState PendingState c /\
     state (proceedToPayment c) = PendingState /\
     seats (proceedToPayment c) = seats c /\
     totalAmount (proceedToPayment c) = totalAmount c /\
     stateHistory (proceedToPayment c)
       = stateHistory c ++ [mkEntry "Draft" "Pending"]) /\
  (state c <> DraftState \/ seats c = [] -> proceedToPayment c = c).
Proof.
  unfold proceedToPayment, State_proceedToPayment, getSeats. split.
  - intros Hs Hseats. rewrite Hs.
    destruct (seats c) eqn:Hl; [contradiction |]. cbn.
    unfold setState, logStateChange. cbn. rewrite Hs, Hl. auto.
  - intros [Hs | Hseats].
    + destruct (state c); try reflexivity. contradiction.
    + rewrite Hseats. destruct (state c); reflexivity.
Qed.

Lemma proceedToPayment_needs_seat_witness :
  state (proceedToPayment
           (addSeat "A1" (JS.of_Z 50000)
              (new_BookingContext "BKG-GENERATED" "John Doe" "Avatar 2" None)))
    = PendingState /\
  proceedToPayment (new_BookingContext "BKG-GENERATED" "John Doe" "Avatar 2" None)
    = new_BookingContext "BKG-GENERATED" "John Doe" "Avatar 2" None.
Proof.
  split.
  - apply (proceedToPayment_needs_seat
             (addSeat "A1" (JS.of_Z 50000)
                (new_BookingContext "BKG-GENERATED" "John Doe" "Avatar 2" None))).
    + reflexivity.
    + discriminate.
  - apply (proceedToPayment_needs_seat
             (new_BookingContext "BKG-GENERATED" "John Doe" "Avatar 2" None)).
    right. reflexivity.
Defined.

Lemma endpoint_last (prev : string) (log : list StateHistoryEntry)
    (e0 : StateHistoryEntry) :
  toState e0 = prev ->
  exists e, last (e0 :: log) = Some e /\ toState e = endpoint prev log.
Proof.
  revert prev e0. induction log as [| e1 log IH]; intros prev e0 He0.
  - exists e0. cbn. auto.
  - destruct (IH (toState e1) e1 eq_refl) as (e & Hlast & He).
    exists e. rewrite last_cons_cons. split; [exact Hlast | exact He].
Qed.

(** X6.  Whatever calls are made on a booking after its construction, the
    transition log is not empty and its last entry ends in the current
    state. *)
Theorem current_state_is_last_logged (generated customerName movieTitle : string)
    (bookingId : option string) (ks : list Call) :
  let c :=
    calls ks (new_BookingContext generated customerName movieTitle bookingId) in
  exists e, last (stateHistory c) = Some e /\ toState e = getStateName c.
Proof.
  intros c.
  destruct (log_inv_calls ks _
              (log_inv_new generated customerName movieTitle bookingId))
    as (rest & Hlog & _ & Hend).
  fold c in Hlog, Hend. rewrite Hlog. unfold getStateName. rewrite <- Hend.
  apply endpoint_last. reflexivity.
Qed.

Lemma terminal_call (k : Call) (c : BookingContext) :
  state c = CompletedState \/ state c = CancelledState ->
  lifecycle k = true -> call k c = c.
Proof.
  intros Hs Hk.
  destruct k; try discriminate Hk; cbn; unfold_calls;
    destruct Hs as [-> | ->]; reflexivity.
Qed.

(** X7.  Completed and Cancelled are absorbing: no sequence of lifecycle
    operations changes a booking that is in one of them. *)
Theorem terminal_states_absorb (ks : list Call) (c : BookingContext) :
  state c = CompletedState \/ state c = CancelledState ->
  Forall (fun k => lifecycle k = true) ks ->
  calls ks c = c.
Proof.
  intros Hs Hks. unfold calls.
  induction Hks as [| k ks Hk _ IH]; cbn.
  - reflexivity.
  - rewrite (terminal_call k c Hs Hk). exact IH.
Qed.

Lemma terminal_states_absorb_witness :
  calls [CallCancel; CallRefund; CallPay "LX2F3K9C" (JS.of_Z 1)]
    (call CallComplete (one_seat_confirmed 50000))
  = call CallComplete (one_seat_confirmed 50000).
Proof.
  apply terminal_states_absorb.
  - left. reflexivity.
  - repeat constructor.
Defined.

(** X8.  What each operation leaves alone: the booking id, the customer
    and the film never change; only [addSeat] writes the seats and the
    running total; only [pay] writes the paid amount and the transaction
    id -- a refund keeps both as they were and stores no refund. *)
Theorem lifecycle_frame (k : Call) (c : BookingContext) :
  lifecycle k = true ->
  bookingId (call k c) = bookingId c /\
  customerName (call k c) = customerName c /\
  movieTitle (call k c) = movieTitle c /\
  ((forall seatCode price, k <> CallAddSeat seatCode price) ->
     seats (call k c) = seats c /\ totalAmount (call k c) = totalAmount c) /\
  ((forall now amount, k <> CallPay now amount) ->
     paidAmount (call k c) = paidAmount c /\
     transactionId (call k c) = transactionId c).
Proof.
  intros Hk.
  destruct k; try discriminate Hk; cbn; unfold_calls;
    destruct (state c) eqn:Hs; cbn; split_ifs; cbn;
    repeat apply conj; try reflexivity;
    intros Hne; try (split; reflexivity);
    exfalso; eapply Hne; reflexivity.
Qed.

Lemma lifecycle_frame_witness :
  paidAmount (call CallRefund (one_seat_confirmed 50000)) = JS.of_Z 50000.
Proof.
  destruct (lifecycle_frame CallRefund (one_seat_confirmed 50000) eq_refl)
    as (_ & _ & _ & _ & Hpaid).
  destruct Hpaid as [Hpaid _]; [discriminate |].
  rewrite Hpaid. reflexivity.
Defined.

End BookingStatusSpec.

(** * Properties of the seat registry *)

Module SeatManagerSpec.

Import Seat SeatSelection.

(** *** The selected-seats set *)

Lemma elem_of_Set_add (x y : string) (l : list string) :
  y ∈ Set_add x l <-> y = x \/ y ∈ l.
Proof.
  unfold Set_add. destruct (decide (x ∈ l)) as [Hin | Hout].
  - split; [auto | intros [-> | H]; assumption].
  - rewrite elem_of_app, list_elem_of_singleton. tauto.
Qed.

Lemma NoDup_Set_add (x : string) (l : list string) :
  NoDup l -> NoDup (Set_add x l).
Proof.
  intros Hl. unfold Set_add. destruct (decide (x ∈ l)) as [Hin | Hout].
  - exact Hl.
  - apply NoDup_app. split; [exact Hl |]. split.
    + intros y Hy Hy'. apply list_elem_of_singleton in Hy'. congruence.
    + apply NoDup_singleton.
Qed.

Lemma elem_of_Set_delete (x y : string) (l : list string) :
  y ∈ Set_delete x l <-> y <> x /\ y ∈ l.
Proof. unfold Set_delete. rewrite list_elem_of_filter. tauto. Qed.

Lemma NoDup_Set_delete (x : string) (l : list string) :
  NoDup l -> NoDup (Set_delete x l).
Proof. apply NoDup_filter. Qed.

(** Adding a code that is not a member and deleting it again gives the
    set back, order included. *)
Lemma Set_delete_add (x : string) (l : list string) :
  x ∉ l -> Set_delete x (Set_add x l) = l.
Proof.
  intros Hout. unfold Set_add, Set_delete.
  destruct (decide (x ∈ l)) as [Hin | _]; [contradiction |].
  rewrite filter_app, filter_cons_False, filter_nil, app_nil_r
    by (intros H; apply H; reflexivity).
  induction l as [| a l IH]; [reflexivity |].
  apply not_elem_of_cons in Hout as [Hne Hout].
  rewrite filter_cons_True by congruence. f_equal. apply IH, Hout.
Qed.

(** *** [selectSeat] and [deselectSeat] *)

Lemma selectSeat_true (seatCode : string) (m : SeatManager) :
  fst (selectSeat seatCode m) = true <->
  exists seat, seats m !! seatCode = Some seat /\ status seat = AVAILABLE.
Proof.
  unfold selectSeat. destruct (seats m !! seatCode) as [seat |].
  - destruct (decide (status seat <> AVAILABLE)) as [Hne | Heq]; cbn.
    + split; [discriminate |]. intros (s & [= <-] & Hs). contradiction.
    + split; [| reflexivity]. intros _. exists seat. split; [reflexivity |].
      apply dec_stable, Heq.
  - cbn. split; [discriminate |]. intros (s & [=] & _).
Qed.

Lemma selectSeat_success (seatCode : string) (m : SeatManager) (seat : SeatImpl) :
  seats m !! seatCode = Some seat -> status seat = AVAILABLE ->
  selectSeat seatCode m =
  (true, mkManager (<[seatCode := set_status SELECTED seat]> (seats m))
           (Set_add seatCode (selectedSeats m))).
Proof.
  intros Hl Hs. unfold selectSeat. rewrite Hl.
  destruct (decide (status seat <> AVAILABLE)); [contradiction | reflexivity].
Qed.

Lemma selectSeat_false (seatCode : string) (m : SeatManager) :
  fst (selectSeat seatCode m) = false -> selectSeat seatCode m = (false, m).
Proof.
  unfold selectSeat. destruct (seats m !! seatCode) as [seat |]; [| reflexivity].
  destruct (decide (status seat <> AVAILABLE)); [reflexivity | discriminate].
Qed.

Lemma deselectSeat_true (seatCode : string) (m : SeatManager) :
  fst (deselectSeat seatCode m) = true <->
  exists seat, seats m !! seatCode = Some seat /\ status seat = SELECTED.
Proof.
  unfold deselectSeat. destruct (seats m !! seatCode) as [seat |].
  - destruct (decide (status seat <> SELECTED)) as [Hne | Heq]; cbn.
    + split; [discriminate |]. intros (s & [= <-] & Hs). contradiction.
    + split; [| reflexivity]. intros _. exists seat. split; [reflexivity |].
      apply dec_stable, Heq.
  - cbn. split; [discriminate |]. intros (s & [=] & _).
Qed.

Lemma deselectSeat_success (seatCode : string) (m : SeatManager) (seat : SeatImpl) :
  seats m !! seatCode = Some seat -> status seat = SELECTED ->
  deselectSeat seatCode m =
  (true, mkManager (<[seatCode := set_status AVAILABLE seat]> (seats m))
           (Set_delete seatCode (selectedSeats m))).
Proof.
  intros Hl Hs. unfold deselectSeat. rewrite Hl.
  destruct (decide (status seat <> SELECTED)); [contradiction | reflexivity].
Qed.

Lemma deselectSeat_false (seatCode : string) (m : SeatManager) :
  fst (deselectSeat seatCode m) = false -> deselectSeat seatCode m = (false, m).
Proof.
  unfold deselectSeat. destruct (seats m !! seatCode) as [seat |]; [| reflexivity].
  destruct (decide (status seat <> SELECTED)); [reflexivity | discriminate].
Qed.

(** C8.  [selectSeat] returns true exactly when a seat with that code
    exists and its status is AVAILABLE; it then sets the status of that
    seat to SELECTED and touches no other seat.  In every other case, a
    missing seat included, it returns false and leaves the registry as it
    is.  The function is total: no case raises.  Called a second time on
    the same code it returns false. *)
Theorem selectSeat_spec (seatCode : string) (m : SeatManager) :
  (fst (selectSeat seatCode m) = true <->
   exists seat, seats m !! seatCode = Some seat /\ status seat = AVAILABLE) /\
  (forall seat, seats m !! seatCode = Some seat -> status seat = AVAILABLE ->
     seats (snd (selectSeat seatCode m)) !! seatCode
       = Some (set_status SELECTED seat) /\
     forall other, other <> seatCode ->
       seats (snd (selectSeat seatCode m)) !! other = seats m !! other) /\
  (fst (selectSeat seatCode m) = false -> snd (selectSeat seatCode m) = m) /\
  fst (selectSeat seatCode (snd (selectSeat seatCode m))) = false.
Proof.
  split; [apply selectSeat_true |]. split; [| split].
  - intros seat Hl Hs. rewrite (selectSeat_success _ _ _ Hl Hs). cbn. split.
    + apply lookup_insert_eq.
    + intros other Hne. apply lookup_insert_ne. congruence.
  - intros Hf. rewrite (selectSeat_false _ _ Hf). reflexivity.
  - destruct (fst (selectSeat seatCode m)) eqn:Hfst.
    + apply selectSeat_true in Hfst as (seat & Hl & Hs).
      rewrite (selectSeat_success _ _ _ Hl Hs). cbn.
      unfold selectSeat. cbn. rewrite lookup_insert_eq. reflexivity.
    + rewrite (selectSeat_false _ _ Hfst). cbn. exact Hfst.
Qed.

Lemma selectSeat_spec_witness :
  fst (selectSeat "A1" (freshRegistry 5 5)) = true /\
  fst (selectSeat "A1" (snd (selectSeat "A1" (freshRegistry 5 5)))) = false /\
  snd (selectSeat "Z9" (freshRegistry 5 5)) = freshRegistry 5 5.
Proof.
  destruct (selectSeat_spec "A1" (freshRegistry 5 5)) as (Htrue & _ & _ & Hagain).
  destruct (selectSeat_spec "Z9" (freshRegistry 5 5)) as (_ & _ & Hfalse & _).
  split; [| split].
  - apply Htrue. eexists. split; [vm_compute; reflexivity | reflexivity].
  - exact Hagain.
  - apply Hfalse. vm_compute. reflexivity.
Defined.


(** *** The invariant of the registry *)

Lemma foldl_preserves {A B : Type} (P : A -> Prop) (f : A -> B -> A)
    (l : list B) (a : A) :
  (forall a b, P a -> P (f a b)) -> P a -> P (foldl f a l).
Proof.
  intros Hf. revert a. induction l as [| b l IH]; intros a Ha; cbn.
  - exact Ha.
  - apply IH, Hf, Ha.
Qed.

Lemma noneSelected_initializeSeat (showtimeId : string) (rows : nat)
    (basePrice : JS.number) (isBooked : bool) (r s : nat) (m : SeatManager) :
  noneSelected m ->
  noneSelected (initializeSeat showtimeId rows basePrice isBooked r s m).
Proof.
  intros [Hsel Hst]. split; [exact Hsel |].
  intros code seat. unfold initializeSeat. cbn.
  rewrite lookup_insert. case_decide as Hcode.
  - intros [= <-]. cbn. destruct isBooked; discriminate.
  - apply Hst.
Qed.

Lemma noneSelected_initializeSeats (random : nat -> nat -> bool)
    (showtimeId : string) (rows seatsPerRow : nat) (basePrice : JS.number) :
  noneSelected
    (initializeSeats random showtimeId rows seatsPerRow basePrice new_SeatManager).
Proof.
  unfold initializeSeats. apply foldl_preserves.
  - intros m r Hm. apply foldl_preserves; [| exact Hm].
    intros m' s Hm'. apply noneSelected_initializeSeat, Hm'.
  - split; [reflexivity |]. intros code seat. cbn.
    rewrite lookup_empty. discriminate.
Qed.

Lemma noneSelected_consistent (m : SeatManager) :
  noneSelected m -> consistent m.
Proof.
  intros [Hsel Hst]. split.
  - rewrite Hsel. apply NoDup_nil_2.
  - intros code. rewrite Hsel. split.
    + intros Hin. apply elem_of_nil in Hin as [].
    + intros (seat & Hl & Hs). destruct (Hst _ _ Hl Hs).
Qed.

Lemma consistent_selectSeat (seatCode : string) (m : SeatManager) :
  consistent m -> consistent (snd (selectSeat seatCode m)).
Proof.
  intros [Hnd Hiff].
  destruct (fst (selectSeat seatCode m)) eqn:Hfst.
  - apply selectSeat_true in Hfst as (seat & Hl & Hs).
    rewrite (selectSeat_success _ _ _ Hl Hs). cbn. split; cbn.
    + apply NoDup_Set_add, Hnd.
    + intros code. rewrite elem_of_Set_add, lookup_insert.
      case_decide as Hcode.
      * subst code. split; [| auto]. intros _. eexists. split; reflexivity.
      * rewrite Hiff. split; [| tauto]. intros [-> | H]; [congruence | exact H].
  - rewrite (selectSeat_false _ _ Hfst). split; assumption.
Qed.

Lemma consistent_deselectSeat (seatCode : string) (m : SeatManager) :
  consistent m -> consistent (snd (deselectSeat seatCode m)).
Proof.
  intros [Hnd Hiff].
  destruct (fst (deselectSeat seatCode m)) eqn:Hfst.
  - apply deselectSeat_true in Hfst as (seat & Hl & Hs).
    rewrite (deselectSeat_success _ _ _ Hl Hs). cbn. split; cbn.
    + apply NoDup_Set_delete, Hnd.
    + intros code. rewrite elem_of_Set_delete, lookup_insert.
      case_decide as Hcode.
      * subst code. split; [intros [Hne _]; congruence |].
        intros (s & [= <-] & Hst). discriminate Hst.
      * rewrite Hiff. split; [tauto |]. intros H. split; [congruence | exact H].
  - rewrite (deselectSeat_false _ _ Hfst). split; assumption.
Qed.

(** What the loop of [confirmBooking] leaves under each code. *)
Lemma confirm_loop_lookup (l : list string) (ss : gmap string SeatImpl)
    (code : string) :
  foldl (fun ss code =>
           match ss !! code with
           | Some seat => <[code := set_status BOOKED seat]> ss
           | None => ss
           end) ss l !! code
  = if decide (code ∈ l) then set_status BOOKED <$> ss !! code else ss !! code.
Proof.
  revert ss. induction l as [| a l IH]; intros ss; cbn.
  - rewrite decide_False by apply not_elem_of_nil. reflexivity.
  - rewrite IH. clear IH.
    assert (Hstep :
      (match ss !! a with
       | Some seat => <[a := set_status BOOKED seat]> ss
       | None => ss
       end) !! code
      = if decide (code = a) then set_status BOOKED <$> ss !! code
        else ss !! code).
    { destruct (decide (code = a)) as [-> | Hne].
      - destruct (ss !! a) as [seat |] eqn:Ha.
        + rewrite lookup_insert_eq. reflexivity.
        + rewrite Ha. reflexivity.
      - destruct (ss !! a); [rewrite lookup_insert_ne by congruence |];
          reflexivity. }
    rewrite Hstep.
    destruct (decide (code = a)) as [-> | Hne].
    + rewrite (decide_True (P := a ∈ a :: l)) by apply list_elem_of_here.
      destruct (decide (a ∈ l)); destruct (ss !! a); reflexivity.
    + destruct (decide (code ∈ l)) as [Hin | Hout].
      * rewrite decide_True by (apply list_elem_of_further, Hin). reflexivity.
      * rewrite decide_False; [reflexivity |].
        intros [? | ?]%elem_of_cons; contradiction.
Qed.

Lemma consistent_confirmBooking (m : SeatManager) :
  consistent m -> consistent (snd (confirmBooking m)).
Proof.
  intros [Hnd Hiff]. unfold confirmBooking.
  destruct (Nat.eqb (length (selectedSeats m)) 0); [split; assumption |].
  apply noneSelected_consistent. split; [reflexivity |].
  intros code seat. cbn. rewrite confirm_loop_lookup.
  destruct (decide (code ∈ selectedSeats m)) as [Hin | Hout].
  - destruct (seats m !! code); [| discriminate].
    intros [= <-]. discriminate.
  - intros Hl Hs. apply Hout, Hiff. eauto.
Qed.

Lemma consistent_ops (os : list Op) (m : SeatManager) :
  consistent m -> consistent (ops os m).
Proof.
  unfold ops. apply foldl_preserves. clear.
  intros m [seatCode | seatCode |] Hm; cbn.
  - apply consistent_selectSeat, Hm.
  - apply consistent_deselectSeat, Hm.
  - apply consistent_confirmBooking, Hm.
Qed.

(** *** The total of the selected seats *)

Lemma sum_app (l k : list JS.number) : sum (l ++ k) = (sum l + sum k)%Qc.
Proof.
  unfold sum. induction l as [| a l IH]; cbn.
  - rewrite Qcplus_0_l. reflexivity.
  - rewrite IH. apply Qcplus_assoc.
Qed.

Lemma sum_Permutation (l k : list JS.number) : l ≡ₚ k -> sum l = sum k.
Proof.
  unfold sum. induction 1 as [| a l k _ IH | a b l | l k j _ IH1 _ IH2]; cbn.
  - reflexivity.
  - rewrite IH. reflexivity.
  - rewrite !Qcplus_assoc, (Qcplus_comm b a). reflexivity.
  - congruence.
Qed.

Lemma reduce_sum (l : list SeatImpl) (a : JS.number) :
  foldl (fun sum seat => (sum + price seat)%Qc) a l = (a + sum (price <$> l))%Qc.
Proof.
  unfold sum. revert a. induction l as [| s l IH]; intros a; cbn.
  - rewrite Qcplus_0_r. reflexivity.
  - rewrite IH. symmetry. apply Qcplus_assoc.
Qed.

Lemma getSelectedSeats_omap (m : SeatManager) :
  getSelectedSeats m = omap (fun code => seats m !! code) (selectedSeats m).
Proof.
  unfold getSelectedSeats.
  enough (H : forall l acc,
             foldl (fun selected code =>
                      match seats m !! code with
                      | Some seat => selected ++ [seat]
                      | None => selected
                      end) acc l
             = acc ++ omap (fun code => seats m !! code) l)
    by apply (H _ []).
  induction l as [| code l IH]; intros acc; cbn.
  - rewrite app_nil_r. reflexivity.
  - rewrite IH. destruct (seats m !! code); [| reflexivity].
    rewrite <- app_assoc. reflexivity.
Qed.

(** The total the registry reports: the prices under the codes of the
    selected-seats set, a code without a seat counting for nothing. *)
Lemma getSelectedSeatsTotal_codes (m : SeatManager) :
  getSelectedSeatsTotal m = sum (priceOf m <$> selectedSeats m).
Proof.
  unfold getSelectedSeatsTotal. rewrite reduce_sum, Qcplus_0_l.
  rewrite getSelectedSeats_omap.
  unfold sum.
  induction (selectedSeats m) as [| code l IH]; cbn; [reflexivity |].
  unfold priceOf at 1. destruct (seats m !! code); cbn; rewrite IH.
  - reflexivity.
  - rewrite Qcplus_0_l. reflexivity.
Qed.

Lemma selectedStatusTotal_codes (m : SeatManager) :
  selectedStatusTotal m
  = sum (priceOf m <$>
           (filter (fun kv : string * SeatImpl => status kv.2 = SELECTED)
              (map_to_list (seats m))).*1).
Proof.
  unfold selectedStatusTotal. f_equal.
  rewrite <- list_fmap_compose. apply Forall_fmap_ext_1, Forall_forall.
  intros [code seat] [_ Hin%elem_of_map_to_list]%list_elem_of_filter.
  cbn. unfold priceOf. rewrite Hin. reflexivity.
Qed.

Lemma selected_codes_Permutation (m : SeatManager) :
  consistent m ->
  (filter (fun kv : string * SeatImpl => status kv.2 = SELECTED)
     (map_to_list (seats m))).*1 ≡ₚ selectedSeats m.
Proof.
  intros [Hnd Hiff]. apply NoDup_Permutation; [| exact Hnd |].
  - apply NoDup_fmap_fst.
    + intros code s1 s2 [_ H1]%list_elem_of_filter [_ H2]%list_elem_of_filter.
      exact (map_to_list_unique (seats m) code s1 s2 H1 H2).
    + apply NoDup_filter, NoDup_map_to_list.
  - intros code. rewrite Hiff, list_elem_of_fmap. split.
    + intros ([code' seat] & -> & [Hs Hin%elem_of_map_to_list]%list_elem_of_filter).
      exists seat. auto.
    + intros (seat & Hl & Hs). exists (code, seat). split; [reflexivity |].
      apply list_elem_of_filter. split; [exact Hs |].
      apply elem_of_map_to_list, Hl.
Qed.

Lemma consistent_total (m : SeatManager) :
  consistent m -> getSelectedSeatsTotal m = selectedStatusTotal m.
Proof.
  intros Hm. rewrite getSelectedSeatsTotal_codes, selectedStatusTotal_codes.
  apply sum_Permutation, fmap_Permutation. symmetry.
  apply selected_codes_Permutation, Hm.
Qed.

(** C9.  After [initializeSeats] on a new registry, whatever the draws for
    the seats booked in advance, and after any sequence of [selectSeat],
    [deselectSeat] and [confirmBooking] calls, a code is in the
    selected-seats set exactly when the seat with that code has status
    SELECTED, and [getSelectedSeatsTotal] is the sum of the prices of
    exactly the seats whose status is SELECTED. *)
Theorem selected_set_matches_status (random : nat -> nat -> bool)
    (showtimeId : string) (rows seatsPerRow : nat) (basePrice : JS.number)
    (os : list Op) :
  let m :=
    ops os (initializeSeats random showtimeId rows seatsPerRow basePrice
              new_SeatManager) in
  (forall code : string,
     code ∈ selectedSeats m <->
     exists seat, seats m !! code = Some seat /\ status seat = SELECTED) /\
  getSelectedSeatsTotal m = selectedStatusTotal m.
Proof.
  intros m.
  assert (Hm : consistent m).
  { apply consistent_ops, noneSelected_consistent, noneSelected_initializeSeats. }
  split; [apply Hm | apply consistent_total, Hm].
Qed.

(** The scenario of the registry: in a new 5 by 5 registry, select A1,
    select it again, deselect it, deselect it again. *)
Lemma registry_scenario :
  let m0 := freshRegistry 5 5 in
  let m1 := snd (selectSeat "A1" m0) in
  let m2 := snd (selectSeat "A1" m1) in
  let m3 := snd (deselectSeat "A1" m2) in
  fst (selectSeat "A1" m0) = true /\ fst (selectSeat "A1" m1) = false /\
  fst (deselectSeat "A1" m2) = true /\ fst (deselectSeat "A1" m3) = false /\
  status <$> seats m3 !! "A1" = Some AVAILABLE.
Proof. cbv zeta. repeat apply conj; vm_compute; reflexivity. Qed.

(** *** Further properties of the registry *)

(** X9.  [deselectSeat] returns true exactly when a seat with that code
    exists and its status is SELECTED; it then sets the status of that
    seat to AVAILABLE, takes the code out of the selected set -- the set
    afterwards holds the other codes it held before, in the same order,
    and no more -- and touches no other seat.  In every other case, a
    missing seat included, it returns false and leaves the registry as it
    is, so that a second call on the same code returns false. *)
Theorem deselectSeat_spec (seatCode : string) (m : SeatManager) :
  (fst (deselectSeat seatCode m) = true <->
   exists seat, seats m !! seatCode = Some seat /\ status seat = SELECTED) /\
  (forall seat, seats m !! seatCode = Some seat -> status seat = SELECTED ->
     seats (snd (deselectSeat seatCode m)) !! seatCode
       = Some (set_status AVAILABLE seat) /\
     (seatCode ∉ selectedSeats (snd (deselectSeat seatCode m))) /\
     selectedSeats (snd (deselectSeat seatCode m))
       = filter (fun code => code <> seatCode) (selectedSeats m) /\
     (forall code, code ∈ selectedSeats (snd (deselectSeat seatCode m)) <->
        code <> seatCode /\ code ∈ selectedSeats m) /\
     forall other, other <> seatCode ->
       seats (snd (deselectSeat seatCode m)) !! other = seats m !! other) /\
  (fst (deselectSeat seatCode m) = false -> snd (deselectSeat seatCode m) = m) /\
  fst (deselectSeat seatCode (snd (deselectSeat seatCode m))) = false.
Proof.
  split; [apply deselectSeat_true |]. split; [| split].
  - intros seat Hl Hs. rewrite (deselectSeat_success _ _ _ Hl Hs). cbn.
    split; [apply lookup_insert_eq |]. split; [| split; [| split]].
    + intros [Hne _]%elem_of_Set_delete. congruence.
    + reflexivity.
    + intros code. apply elem_of_Set_delete.
    + intros other Hne. apply lookup_insert_ne. congruence.
  - intros Hf. rewrite (deselectSeat_false _ _ Hf). reflexivity.
  - destruct (fst (deselectSeat seatCode m)) eqn:Hfst.
    + apply deselectSeat_true in Hfst as (seat & Hl & Hs).
      rewrite (deselectSeat_success _ _ _ Hl Hs). cbn.
      unfold deselectSeat. cbn. rewrite lookup_insert_eq. reflexivity.
    + rewrite (deselectSeat_false _ _ Hfst). cbn. exact Hfst.
Qed.

Lemma deselectSeat_spec_witness :
  let m := snd (selectSeat "A2" (snd (selectSeat "A1" (freshRegistry 5 5)))) in
  fst (deselectSeat "A1" m) = true /\
  selectedSeats m = ["A1"; "A2"] /\
  selectedSeats (snd (deselectSeat "A1" m)) = ["A2"] /\
  snd (deselectSeat "A1" (freshRegistry 5 5)) = freshRegistry 5 5.
Proof.
  intros m. split; [| split; [| split]].
  - apply (deselectSeat_spec "A1" m).
    eexists. split; [vm_compute; reflexivity | reflexivity].
  - vm_compute. reflexivity.
  - destruct (deselectSeat_spec "A1" m) as (_ & Hok & _).
    edestruct Hok as (_ & _ & Heq & _);
      [vm_compute; reflexivity | reflexivity |].
    rewrite Heq. vm_compute. reflexivity.
  - apply (deselectSeat_spec "A1" (freshRegistry 5 5)).
    vm_compute. reflexivity.
Defined.

Lemma selectSeat_alter (seatCode : string) (m : SeatManager) :
  seats (snd (selectSeat seatCode m)) = alter select seatCode (seats m).
Proof.
  apply map_eq. intros code. destruct (decide (seatCode = code)) as [<- | Hne].
  - rewrite lookup_alter_eq. unfold selectSeat, select, isAvailable.
    destruct (seats m !! seatCode) as [seat |] eqn:Hl; cbn;
      [| rewrite Hl; reflexivity].
    destruct (decide (status seat <> AVAILABLE)) as [Hs | Hs]; cbn.
    + rewrite Hl, bool_decide_eq_false_2 by exact Hs. reflexivity.
    + rewrite lookup_insert_eq,
        bool_decide_eq_true_2 by (apply dec_stable, Hs).
      reflexivity.
  - rewrite lookup_alter_ne by exact Hne. unfold selectSeat.
    destruct (seats m !! seatCode) as [seat |]; [| reflexivity].
    destruct (decide (status seat <> AVAILABLE)); cbn; [reflexivity |].
    apply lookup_insert_ne, Hne.
Qed.

Lemma deselectSeat_alter (seatCode : string) (m : SeatManager) :
  seats (snd (deselectSeat seatCode m)) = alter deselect seatCode (seats m).
Proof.
  apply map_eq. intros code. destruct (decide (seatCode = code)) as [<- | Hne].
  - rewrite lookup_alter_eq. unfold deselectSeat, deselect.
    destruct (seats m !! seatCode) as [seat |] eqn:Hl; cbn;
      [| rewrite Hl; reflexivity].
    destruct (decide (status seat <> SELECTED)) as [Hs | Hs]; cbn.
    + rewrite Hl, decide_False by exact Hs. reflexivity.
    + rewrite lookup_insert_eq, decide_True by (apply dec_stable, Hs).
      reflexivity.
  - rewrite lookup_alter_ne by exact Hne. unfold deselectSeat.
    destruct (seats m !! seatCode) as [seat |]; [| reflexivity].
    destruct (decide (status seat <> SELECTED)); cbn; [reflexivity |].
    apply lookup_insert_ne, Hne.
Qed.

Lemma confirmBooking_lookup (m : SeatManager) (code : string) :
  seats (snd (confirmBooking m)) !! code
  = if decide (code ∈ selectedSeats m)
    then set_status BOOKED <$> seats m !! code else seats m !! code.
Proof.
  unfold confirmBooking.
  destruct (selectedSeats m) as [| c l] eqn:Hsel; cbn [Nat.eqb length snd].
  - rewrite decide_False by apply not_elem_of_nil. reflexivity.
  - cbn [seats]. apply (confirm_loop_lookup (c :: l)).
Qed.

(** X10.  The registry changes a seat exactly as the seat's own methods
    would: [selectSeat] applies [select] to the seat under the code,
    [deselectSeat] applies [deselect], and no other seat changes; in a
    registry whose selected set matches the statuses, [confirmBooking]
    applies [book] to every seat. *)
Theorem registry_acts_as_seat_methods (seatCode : string) (m : SeatManager) :
  seats (snd (selectSeat seatCode m)) = alter select seatCode (seats m) /\
  seats (snd (deselectSeat seatCode m)) = alter deselect seatCode (seats m) /\
  (consistent m -> seats (snd (confirmBooking m)) = book <$> seats m).
Proof.
  split; [apply selectSeat_alter |]. split; [apply deselectSeat_alter |].
  intros [_ Hiff]. apply map_eq. intros code.
  rewrite confirmBooking_lookup, lookup_fmap.
  destruct (seats m !! code) as [seat |] eqn:Hl; cbn.
  - unfold book. destruct (decide (code ∈ selectedSeats m)) as [Hin | Hout].
    + apply Hiff in Hin as (seat' & Hl' & Hs'). rewrite Hl in Hl'.
      injection Hl' as <-. rewrite decide_True by exact Hs'. reflexivity.
    + rewrite decide_False; [reflexivity |].
      intros Hs. apply Hout, Hiff. eauto.
  - destruct (decide (code ∈ selectedSeats m)); reflexivity.
Qed.

Lemma registry_acts_as_seat_methods_witness :
  seats (snd (confirmBooking (snd (selectSeat "A1" (freshRegistry 5 5)))))
  = book <$> seats (snd (selectSeat "A1" (freshRegistry 5 5))).
Proof.
  apply (registry_acts_as_seat_methods "A1").
  apply consistent_selectSeat, noneSelected_consistent,
    noneSelected_initializeSeats.
Defined.

(** X11.  [confirmBooking] returns true exactly when the selected set is
    not empty, and false leaves the registry as it is.  Afterwards the
    selected set is empty, every seat whose code was in it has status
    BOOKED, and every other seat is as it was. *)
Theorem confirmBooking_spec (m : SeatManager) :
  (fst (confirmBooking m) = true <-> selectedSeats m <> []) /\
  (fst (confirmBooking m) = false -> snd (confirmBooking m) = m) /\
  selectedSeats (snd (confirmBooking m)) = [] /\
  forall code,
    seats (snd (confirmBooking m)) !! code
    = if decide (code ∈ selectedSeats m)
      then set_status BOOKED <$> seats m !! code else seats m !! code.
Proof.
  split; [| split; [| split; [| apply confirmBooking_lookup]]];
    unfold confirmBooking; destruct (selectedSeats m) eqn:Hsel; cbn;
    try rewrite Hsel; try reflexivity; try discriminate.
  - split; [discriminate | congruence].
  - split; [discriminate | reflexivity].
Qed.

Lemma confirmBooking_spec_witness :
  fst (confirmBooking (snd (selectSeat "A1" (freshRegistry 5 5)))) = true /\
  snd (confirmBooking (freshRegistry 5 5)) = freshRegistry 5 5.
Proof.
  split.
  - apply (confirmBooking_spec (snd (selectSeat "A1" (freshRegistry 5 5)))).
    vm_compute. discriminate.
  - apply (confirmBooking_spec (freshRegistry 5 5)). vm_compute. reflexivity.
Defined.

Lemma select_keeps_final (s : SeatImpl) :
  status s = BOOKED \/ status s = UNAVAILABLE -> select s = s.
Proof.
  intros Hs. unfold select, isAvailable.
  rewrite bool_decide_eq_false_2; [reflexivity |].
  destruct Hs as [-> | ->]; discriminate.
Qed.

Lemma deselect_keeps_final (s : SeatImpl) :
  status s = BOOKED \/ status s = UNAVAILABLE -> deselect s = s.
Proof.
  intros Hs. unfold deselect.
  rewrite decide_False; [reflexivity |].
  destruct Hs as [-> | ->]; discriminate.
Qed.

Lemma op_keeps_final (o : Op) (m : SeatManager) (code : string) (s : SeatImpl) :
  consistent m \/ status s = BOOKED ->
  seats m !! code = Some s -> status s = BOOKED \/ status s = UNAVAILABLE ->
  seats (snd (op o m)) !! code = Some s.
Proof.
  intros Hm Hl Hs. destruct o as [c | c |]; cbn.
  - rewrite selectSeat_alter, lookup_alter. case_decide as Hc; [| exact Hl].
    subst c. rewrite Hl. cbn. rewrite (select_keeps_final s Hs). reflexivity.
  - rewrite deselectSeat_alter, lookup_alter. case_decide as Hc; [| exact Hl].
    subst c. rewrite Hl. cbn. rewrite (deselect_keeps_final s Hs). reflexivity.
  - rewrite confirmBooking_lookup, Hl. cbn.
    destruct (decide (code ∈ selectedSeats m)) as [Hin | Hout]; [| reflexivity].
    destruct Hm as [[_ Hiff] | Hb].
    + apply Hiff in Hin as (s' & Hl' & Hs'). rewrite Hl in Hl'.
      injection Hl' as <-. destruct Hs as [Hs | Hs]; congruence.
    + destruct s; cbn in *; subst; reflexivity.
Qed.

(** X12.  A booking is final for a seat: once its status is BOOKED, no
    sequence of [selectSeat], [deselectSeat] and [confirmBooking] calls
    changes the seat.  The same holds for an UNAVAILABLE seat in a registry
    whose selected set matches the statuses. *)
Theorem booked_is_final (os : list Op) (m : SeatManager) (code : string)
    (s : SeatImpl) :
  seats m !! code = Some s ->
  status s = BOOKED \/ (status s = UNAVAILABLE /\ consistent m) ->
  seats (ops os m) !! code = Some s.
Proof.
  intros Hl Hs. unfold ops. revert m Hl Hs.
  induction os as [| o os IH]; intros m Hl Hs; cbn; [exact Hl |].
  apply IH.
  - apply op_keeps_final; [| exact Hl |]; destruct Hs as [Hs | [Hs Hm]]; auto.
  - destruct Hs as [Hs | [Hs Hm]]; [left; exact Hs |].
    right. split; [exact Hs |]. apply (consistent_ops [o]), Hm.
Qed.

Lemma booked_is_final_witness :
  status <$>
    seats (ops [OpSelectSeat "A2"; OpDeselectSeat "A2"; OpSelectSeat "A1";
                OpConfirmBooking] registryA2Booked) !! "A2"
  = Some BOOKED.
Proof.
  rewrite (booked_is_final _ registryA2Booked "A2"
             (mkSeat "SHW-1-A2" (Some "A") 2 REGULAR BOOKED (JS.of_Z 50000))).
  - reflexivity.
  - vm_compute. reflexivity.
  - left. reflexivity.
Defined.

Lemma sameButStatus_refl (o : option SeatImpl) : sameButStatus o o.
Proof.
  destruct o as [s |]; cbn; [| exact I].
  exists (status s). destruct s; reflexivity.
Qed.

Lemma sameButStatus_trans (a b c : option SeatImpl) :
  sameButStatus a b -> sameButStatus b c -> sameButStatus a c.
Proof.
  destruct a as [s |], b as [s' |], c as [s'' |]; cbn; try tauto.
  intros [st ->] [st' ->]. exists st'. reflexivity.
Qed.

Lemma sameButStatus_alter (f : SeatImpl -> SeatImpl) (c code : string)
    (ss : gmap string SeatImpl) :
  (forall s, exists st, f s = set_status st s) ->
  sameButStatus (ss !! code) (alter f c ss !! code).
Proof.
  intros Hf. rewrite lookup_alter. case_decide as Hc.
  - subst c. destruct (ss !! code) as [s |]; cbn; [apply Hf | exact I].
  - apply sameButStatus_refl.
Qed.

Lemma op_sameButStatus (o : Op) (m : SeatManager) (code : string) :
  sameButStatus (seats m !! code) (seats (snd (op o m)) !! code).
Proof.
  destruct o as [c | c |]; cbn.
  - rewrite selectSeat_alter. apply sameButStatus_alter.
    intros s. unfold select. destruct (isAvailable s); [eauto |].
    exists (status s). destruct s; reflexivity.
  - rewrite deselectSeat_alter. apply sameButStatus_alter.
    intros s. unfold deselect. destruct (decide _); [eauto |].
    exists (status s). destruct s; reflexivity.
  - rewrite confirmBooking_lookup.
    destruct (decide (code ∈ selectedSeats m)); [| apply sameButStatus_refl].
    destruct (seats m !! code); cbn; eauto.
Qed.

Lemma ops_sameButStatus (os : list Op) (m : SeatManager) (code : string) :
  sameButStatus (seats m !! code) (seats (ops os m) !! code).
Proof.
  unfold ops. revert m. induction os as [| o os IH]; intros m; cbn.
  - apply sameButStatus_refl.
  - eapply sameButStatus_trans; [apply (op_sameButStatus o) | apply IH].
Qed.

(** X13.  The three operations of the registry write the status only:
    after any sequence of them the registry holds the same codes, and
    under each code the seat it held, with its id, row, number, category
    and price, and some status. *)
Theorem ops_write_status_only (os : list Op) (m : SeatManager) :
  dom (seats (ops os m)) = dom (seats m) /\
  forall code, sameButStatus (seats m !! code) (seats (ops os m) !! code).
Proof.
  split; [| intros code; apply ops_sameButStatus].
  apply set_eq. intros code. rewrite !elem_of_dom.
  pose proof (ops_sameButStatus os m code) as H.
  destruct (seats m !! code), (seats (ops os m) !! code); cbn in H;
    try contradiction; split; intros [? ?]; eauto; discriminate.
Qed.

(** *** Totals *)

Lemma sum_fmap_ext (f g : string -> JS.number) (l : list string) :
  (forall x, x ∈ l -> f x = g x) -> sum (f <$> l) = sum (g <$> l).
Proof.
  intros H. f_equal. apply Forall_fmap_ext_1, Forall_forall. exact H.
Qed.

Lemma sum_snoc (l : list JS.number) (a : JS.number) :
  sum (l ++ [a]) = (sum l + a)%Qc.
Proof. rewrite sum_app. unfold sum at 2. cbn. rewrite Qcplus_0_r. reflexivity. Qed.

(** Taking one member out of a list without repetition takes its term out
    of the sum. *)
Lemma sum_Set_delete (f : string -> JS.number) (x : string) (l : list string) :
  NoDup l -> x ∈ l ->
  sum (f <$> l) = (sum (f <$> Set_delete x l) + f x)%Qc.
Proof.
  unfold Set_delete, sum. induction 1 as [| a l Ha Hl IH]; intros Hin.
  - apply elem_of_nil in Hin as [].
  - destruct (decide (a = x)) as [-> | Hne].
    + rewrite filter_cons_False by (intros H; apply H; reflexivity).
      assert (Hid : filter (fun y => y <> x) l = l).
      { clear IH Hin Hl. induction l as [| b l IHl]; [reflexivity |].
        apply not_elem_of_cons in Ha as [Hb Ha].
        rewrite filter_cons_True by congruence. f_equal. apply IHl, Ha. }
      rewrite Hid. cbn. apply Qcplus_comm.
    + rewrite filter_cons_True by exact Hne. cbn.
      apply elem_of_cons in Hin as [-> | Hin]; [congruence |].
      rewrite (IH Hin). apply Qcplus_assoc.
Qed.

Lemma priceOf_insert_status (m : SeatManager) (c x : string) (seat : SeatImpl)
    (st : SeatStatus) (l : list string) :
  seats m !! c = Some seat ->
  priceOf (mkManager (<[c := set_status st seat]> (seats m)) l) x = priceOf m x.
Proof.
  intros Hl. unfold priceOf. cbn. rewrite lookup_insert.
  case_decide as Hc; [| reflexivity]. subst x. rewrite Hl. reflexivity.
Qed.

(** X14.  In a registry whose selected set matches the statuses, a
    successful [selectSeat] raises the total of the selected seats by the
    price of the seat and a successful [deselectSeat] lowers it by that
    price; after [confirmBooking] the total is 0. *)
Theorem total_follows_selection (seatCode : string) (m : SeatManager) :
  consistent m ->
  (forall seat, seats m !! seatCode = Some seat -> status seat = AVAILABLE ->
     getSelectedSeatsTotal (snd (selectSeat seatCode m))
     = (getSelectedSeatsTotal m + price seat)%Qc) /\
  (forall seat, seats m !! seatCode = Some seat -> status seat = SELECTED ->
     getSelectedSeatsTotal m
     = (getSelectedSeatsTotal (snd (deselectSeat seatCode m)) + price seat)%Qc) /\
  getSelectedSeatsTotal (snd (confirmBooking m)) = 0%Qc.
Proof.
  intros [Hnd Hiff]. split; [| split].
  - intros seat Hl Hs. rewrite (selectSeat_success _ _ _ Hl Hs). cbn [snd].
    rewrite !getSelectedSeatsTotal_codes. cbn [selectedSeats].
    assert (Hout : seatCode ∉ selectedSeats m).
    { intros (s & Hl' & Hs')%Hiff. congruence. }
    unfold Set_add. rewrite decide_False by exact Hout.
    rewrite fmap_app, sum_app. f_equal.
    + apply sum_fmap_ext. intros x _. apply priceOf_insert_status, Hl.
    + rewrite list_fmap_singleton. unfold sum. cbn [foldr].
      rewrite Qcplus_0_r.
      rewrite (priceOf_insert_status m seatCode seatCode seat SELECTED _ Hl).
      unfold priceOf. rewrite Hl. reflexivity.
  - intros seat Hl Hs. rewrite (deselectSeat_success _ _ _ Hl Hs). cbn [snd].
    rewrite !getSelectedSeatsTotal_codes. cbn [selectedSeats].
    rewrite (sum_Set_delete (priceOf m) seatCode) by (try apply Hiff; eauto).
    f_equal.
    + symmetry. apply sum_fmap_ext. intros x _.
      apply priceOf_insert_status, Hl.
    + unfold priceOf. rewrite Hl. reflexivity.
  - unfold confirmBooking.
    destruct (selectedSeats m) eqn:Hsel; cbn; [| reflexivity].
    unfold getSelectedSeatsTotal, getSelectedSeats. rewrite Hsel. reflexivity.
Qed.

Lemma total_follows_selection_witness :
  getSelectedSeatsTotal (snd (selectSeat "A1" (freshRegistry 5 5)))
  = (getSelectedSeatsTotal (freshRegistry 5 5) + JS.of_Z 50000)%Qc.
Proof.
  destruct (total_follows_selection "A1" (freshRegistry 5 5)) as [Hsel _].
  - apply noneSelected_consistent, noneSelected_initializeSeats.
  - apply (Hsel (mkSeat "SHW-1-A1" (Some "A") 1 REGULAR AVAILABLE (JS.of_Z 50000))).
    + vm_compute. reflexivity.
    + reflexivity.
Defined.

(** *** Codes and keys *)

Lemma keyed_initializeSeats (random : nat -> nat -> bool)
    (showtimeId : string) (rows seatsPerRow : nat) (basePrice : JS.number)
    (m : SeatManager) :
  keyed m ->
  keyed (initializeSeats random showtimeId rows seatsPerRow basePrice m).
Proof.
  intros Hm. unfold initializeSeats. apply foldl_preserves; [| exact Hm].
  intros m1 r Hm1. apply foldl_preserves; [| exact Hm1].
  intros m2 s Hm2 code seat. unfold initializeSeat. cbn.
  rewrite lookup_insert. case_decide as Hc.
  - intros [= <-]. exact Hc.
  - apply Hm2.
Qed.

Lemma keyed_ops (os : list Op) (m : SeatManager) : keyed m -> keyed (ops os m).
Proof.
  intros Hm code seat Hl.
  pose proof (ops_sameButStatus os m code) as Hsame.
  rewrite Hl in Hsame. destruct (seats m !! code) as [s |] eqn:Hl0; [| destruct Hsame].
  destruct Hsame as [st ->]. apply (Hm code s Hl0).
Qed.

Lemma getSelectedSeats_codes (m : SeatManager) :
  consistent m -> keyed m ->
  getCode <$> getSelectedSeats m = selectedSeats m.
Proof.
  intros [_ Hiff] Hkey. rewrite getSelectedSeats_omap.
  assert (H : forall code, code ∈ selectedSeats m ->
                exists seat, seats m !! code = Some seat /\ getCode seat = code).
  { intros code (seat & Hl & _)%Hiff. eauto. }
  clear Hiff. induction (selectedSeats m) as [| c l IH]; [reflexivity |].
  destruct (H c) as (seat & Hl & Hc); [apply list_elem_of_here |].
  cbn. rewrite Hl. cbn. rewrite Hc. f_equal.
  apply IH. intros code Hin. apply H, list_elem_of_further, Hin.
Qed.

(** X15.  After [initializeSeats] on a new registry and any sequence of
    [selectSeat], [deselectSeat] and [confirmBooking] calls,
    [getSelectedSeats] returns one seat for each code of the selected set,
    in the order of selection, and [getCode] of each is that code. *)
Theorem selected_seats_carry_their_codes (random : nat -> nat -> bool)
    (showtimeId : string) (rows seatsPerRow : nat) (basePrice : JS.number)
    (os : list Op) :
  let m :=
    ops os (initializeSeats random showtimeId rows seatsPerRow basePrice
              new_SeatManager) in
  getCode <$> getSelectedSeats m = selectedSeats m.
Proof.
  intros m. apply getSelectedSeats_codes.
  - apply consistent_ops, noneSelected_consistent, noneSelected_initializeSeats.
  - apply keyed_ops, keyed_initializeSeats.
    intros code seat. cbn. rewrite lookup_empty. discriminate.
Qed.

(** *** The grid *)

Lemma rowLabel_Some (r : nat) :
  (r < 26)%nat -> exists a, rowLabel r = Some (String a EmptyString).
Proof.
  intros Hr.
  do 26 (destruct r as [| r]; [eexists; reflexivity |]). lia.
Qed.

Lemma rowLabel_inj (r r' : nat) :
  (r < 26)%nat -> (r' < 26)%nat -> rowLabel r = rowLabel r' -> r = r'.
Proof.
  intros Hr Hr'.
  assert (H : Forall (fun r => Forall (fun r' => rowLabel r = rowLabel r' -> r = r')
                                 (seq 0 26)) (seq 0 26)).
  { apply (bool_decide_unpack _). vm_compute. exact I. }
  rewrite Forall_forall in H. specialize (H r).
  rewrite Forall_forall in H. apply H; apply elem_of_seq; lia.
Qed.

Lemma gridCode_inj (r s r' s' : nat) :
  (r < 26)%nat -> (r' < 26)%nat -> gridCode r s = gridCode r' s' ->
  r = r' /\ s = s'.
Proof.
  intros Hr Hr' Heq. unfold gridCode in Heq.
  destruct (rowLabel_Some r Hr) as [a Ha].
  destruct (rowLabel_Some r' Hr') as [a' Ha'].
  rewrite Ha, Ha' in Heq. cbn in Heq. injection Heq as Haa Hss.
  split.
  - apply rowLabel_inj; [assumption | assumption |]. congruence.
  - apply (inj pretty), Hss.
Qed.

Lemma initializeSeats_pairs (random : nat -> nat -> bool) (showtimeId : string)
    (rows seatsPerRow : nat) (basePrice : JS.number) (m : SeatManager) :
  initializeSeats random showtimeId rows seatsPerRow basePrice m
  = foldl (fun m p =>
             initializeSeat showtimeId rows basePrice (random p.1 p.2) p.1 p.2 m)
          m (gridPairs rows seatsPerRow).
Proof.
  unfold initializeSeats, gridPairs. revert m.
  induction (seq 0 rows) as [| r l IH]; intros m; [reflexivity |].
  cbn [foldl]. rewrite IH.
  change ((r :: l) ≫= _)
    with (((fun s => (r, s)) <$> seq 1 seatsPerRow)
            ++ (l ≫= fun r => (fun s => (r, s)) <$> seq 1 seatsPerRow)).
  rewrite foldl_app, foldl_fmap. reflexivity.
Qed.

Lemma elem_of_gridPairs (rows seatsPerRow r s : nat) :
  (r, s) ∈ gridPairs rows seatsPerRow <->
  (r < rows)%nat /\ (1 <= s <= seatsPerRow)%nat.
Proof.
  unfold gridPairs. rewrite list_elem_of_bind. split.
  - intros (r' & Hin & Hr'). apply list_elem_of_fmap in Hin as (s' & [= -> ->] & Hs').
    apply elem_of_seq in Hr', Hs'. lia.
  - intros [Hr Hs]. exists r. split.
    + apply list_elem_of_fmap. exists s. split; [reflexivity |].
      apply elem_of_seq. lia.
    + apply elem_of_seq. lia.
Qed.

Lemma NoDup_gridPairs (rows seatsPerRow : nat) :
  NoDup (gridPairs rows seatsPerRow).
Proof.
  unfold gridPairs. apply NoDup_bind.
  - intros r1 r2 [r s] _ _ (s1 & [= -> ->] & _)%list_elem_of_fmap
      (s2 & [= -> ->] & _)%list_elem_of_fmap.
    reflexivity.
  - intros r _. apply NoDup_fmap_2; [| apply NoDup_seq].
    intros s1 s2 [= ->]. reflexivity.
  - apply NoDup_seq.
Qed.

Lemma length_gridPairs (rows seatsPerRow : nat) :
  length (gridPairs rows seatsPerRow) = (rows * seatsPerRow)%nat.
Proof.
  unfold gridPairs.
  enough (H : forall j,
             length (seq j rows ≫= fun r => (fun s => (r, s)) <$> seq 1 seatsPerRow)
             = (rows * seatsPerRow)%nat) by apply H.
  induction rows as [| rows IH]; intros j; [reflexivity |].
  cbn [seq].
  change ((j :: seq (S j) rows) ≫= _)
    with (((fun s => (j, s)) <$> seq 1 seatsPerRow)
            ++ (seq (S j) rows ≫= fun r => (fun s => (r, s)) <$> seq 1 seatsPerRow)).
  rewrite length_app, length_fmap, length_seq, IH. lia.
Qed.

(** What a run of the loop body over a list of pairs leaves: the seat of
    a pair under its key when no later pair has the same key, the old
    entry under a key of no pair, and the selected set as it was. *)
Lemma initialize_loop (random : nat -> nat -> bool) (showtimeId : string)
    (rows : nat) (basePrice : JS.number) (ps : list (nat * nat))
    (m : SeatManager) :
  let m' :=
    foldl (fun m p =>
             initializeSeat showtimeId rows basePrice (random p.1 p.2) p.1 p.2 m)
          m ps in
  selectedSeats m' = selectedSeats m /\
  (forall code, (forall p, p ∈ ps -> gridCode p.1 p.2 <> code) ->
     seats m' !! code = seats m !! code) /\
  (NoDup ((fun p => gridCode p.1 p.2) <$> ps) ->
   (forall p, p ∈ ps ->
      seats m' !! gridCode p.1 p.2
      = Some (gridSeat random showtimeId rows basePrice p.1 p.2)) /\
   ((forall p, p ∈ ps -> seats m !! gridCode p.1 p.2 = None) ->
    size (seats m') = (size (seats m) + length ps)%nat)).
Proof.
  induction ps as [| p ps IH] using rev_ind; intros m'.
  - subst m'. cbn. repeat apply conj; try reflexivity.
    + intros _. split.
      * intros p Hp. apply elem_of_nil in Hp as [].
      * intros _. lia.
  - subst m'. rewrite foldl_app. cbn [foldl].
    destruct IH as (Hsel & Hother & Hgrid).
    set (m1 := foldl _ m ps) in *.
    assert (Hstep :
      seats (initializeSeat showtimeId rows basePrice (random p.1 p.2) p.1 p.2 m1)
      = <[gridCode p.1 p.2 := gridSeat random showtimeId rows basePrice p.1 p.2]>
          (seats m1)) by reflexivity.
    rewrite !Hstep.
    split; [exact Hsel |]. split.
    + intros code Hne. rewrite lookup_insert_ne.
      * apply Hother. intros q Hq. apply Hne, elem_of_app. left. exact Hq.
      * apply Hne, elem_of_app. right. apply list_elem_of_here.
    + rewrite fmap_app. cbn [fmap list_fmap].
      intros (Hnd & Hfresh & _)%NoDup_app.
      destruct (Hgrid Hnd) as [Hlook Hsize].
      assert (Hp : forall q, q ∈ ps -> gridCode p.1 p.2 <> gridCode q.1 q.2).
      { intros q Hq Heq. apply (Hfresh (gridCode q.1 q.2)).
        - apply list_elem_of_fmap. exists q. auto.
        - rewrite <- Heq. apply list_elem_of_here. }
      split.
      * intros q [Hq | ->%list_elem_of_singleton]%elem_of_app.
        -- rewrite lookup_insert_ne by (apply Hp, Hq). apply Hlook, Hq.
        -- apply lookup_insert_eq.
      * intros Hnone. rewrite map_size_insert_None.
        -- rewrite Hsize, length_app; [cbn; lia |].
           intros q Hq. apply Hnone, elem_of_app. left. exact Hq.
        -- rewrite Hother.
           ++ apply Hnone, elem_of_app. right. apply list_elem_of_here.
           ++ intros q Hq Heq. apply (Hp q Hq). symmetry. exact Heq.
Qed.

Lemma NoDup_gridCodes (rows seatsPerRow : nat) :
  (rows <= 26)%nat ->
  NoDup ((fun p => gridCode p.1 p.2) <$> gridPairs rows seatsPerRow).
Proof.
  intros Hrows. apply NoDup_fmap_2_strong; [| apply NoDup_gridPairs].
  intros [r s] [r' s'] [Hr _]%elem_of_gridPairs [Hr' _]%elem_of_gridPairs Heq.
  cbn in Heq. apply gridCode_inj in Heq as [-> ->]; [reflexivity | lia | lia].
Qed.

(** X16.  [initializeSeats] with at most 26 rows stores, for each row index
    [r] below [rows] and each number [s] from 1 to [seatsPerRow], under
    the code made of the row letter and the number, the seat with that
    letter and number: VIP at one and a half times the base price in the
    last two rows, REGULAR at the base price elsewhere, BOOKED when the
    draw says so and AVAILABLE otherwise.  Entries under other codes are
    as they were, and a new registry then holds [rows * seatsPerRow]
    seats. *)
Theorem initializeSeats_grid (random : nat -> nat -> bool) (showtimeId : string)
    (rows seatsPerRow : nat) (basePrice : JS.number) (m : SeatManager) :
  (rows <= 26)%nat ->
  let m' := initializeSeats random showtimeId rows seatsPerRow basePrice m in
  (forall r s, (r < rows)%nat -> (1 <= s <= seatsPerRow)%nat ->
     seats m' !! gridCode r s
     = Some (gridSeat random showtimeId rows basePrice r s)) /\
  (forall code,
     (forall r s, (r < rows)%nat -> (1 <= s <= seatsPerRow)%nat ->
        gridCode r s <> code) ->
     seats m' !! code = seats m !! code) /\
  (seats m = ∅ -> size (seats m') = (rows * seatsPerRow)%nat).
Proof.
  intros Hrows m'. subst m'. rewrite initializeSeats_pairs.
  destruct (initialize_loop random showtimeId rows basePrice
              (gridPairs rows seatsPerRow) m) as (_ & Hother & Hgrid).
  destruct (Hgrid (NoDup_gridCodes rows seatsPerRow Hrows)) as [Hlook Hsize].
  split; [| split].
  - intros r s Hr Hs. apply (Hlook (r, s)), elem_of_gridPairs. auto.
  - intros code Hne. apply Hother.
    intros [r s] [Hr Hs]%elem_of_gridPairs. apply Hne; assumption.
  - intros Hempty. rewrite Hsize, Hempty, length_gridPairs.
    + rewrite map_size_empty. reflexivity.
    + intros p _. rewrite Hempty. apply lookup_empty.
Qed.

Lemma initializeSeats_grid_witness :
  seats (freshRegistry 10 15) !! gridCode 8 3
  = Some (gridSeat (fun _ _ => false) "SHW-1" 10 (JS.of_Z 50000) 8 3) /\
  size (seats (freshRegistry 10 15)) = 150%nat.
Proof.
  destruct (initializeSeats_grid (fun _ _ => false) "SHW-1" 10 15
              (JS.of_Z 50000) new_SeatManager) as (Hlook & _ & Hsize).
  - lia.
  - split.
    + apply Hlook; lia.
    + apply Hsize. reflexivity.
Defined.

(** X17.  [initializeSeats] never touches the selected set.  Run on a
    registry in which the code of a seat of the new grid is selected, it
    replaces that seat by one that is not SELECTED and leaves its code in
    the set, so that the set no longer matches the statuses. *)
Theorem initializeSeats_keeps_selection (random : nat -> nat -> bool)
    (showtimeId : string) (rows seatsPerRow : nat) (basePrice : JS.number)
    (m : SeatManager) :
  let m' := initializeSeats random showtimeId rows seatsPerRow basePrice m in
  selectedSeats m' = selectedSeats m /\
  forall r s, (rows <= 26)%nat -> (r < rows)%nat -> (1 <= s <= seatsPerRow)%nat ->
    gridCode r s ∈ selectedSeats m -> ~ consistent m'.
Proof.
  intros m'. subst m'. rewrite initializeSeats_pairs.
  destruct (initialize_loop random showtimeId rows basePrice
              (gridPairs rows seatsPerRow) m) as (Hsel & _ & Hgrid).
  split; [exact Hsel |].
  intros r s Hrows Hr Hs Hin [_ Hiff].
  destruct (Hgrid (NoDup_gridCodes rows seatsPerRow Hrows)) as [Hlook _].
  rewrite <- Hsel in Hin. apply Hiff in Hin as (seat & Hl & Hst).
  assert (Hl' := Hlook (r, s) (proj2 (elem_of_gridPairs _ _ r s) (conj Hr Hs))).
  cbn [fst snd] in Hl'. rewrite Hl' in Hl.
  injection Hl as <-. cbn in Hst. destruct (random r s); discriminate.
Qed.

Lemma initializeSeats_keeps_selection_witness :
  ~ consistent registryInitializedTwice.
Proof.
  destruct (initializeSeats_keeps_selection (fun _ _ => false) "SHW-2" 5 5
              (JS.of_Z 50000) (snd (selectSeat "A1" (freshRegistry 5 5))))
    as [_ H].
  apply (H 0%nat 1%nat); try lia.
  vm_compute. apply list_elem_of_here.
Defined.

(** *** The methods of a seat *)

(** X28.  The status rule of [SeatImpl]: selecting an AVAILABLE seat and
    deselecting it gives the seat back, and so does deselecting a SELECTED
    seat and selecting it again; [book] books a seat just selected and does
    nothing to a seat that is only AVAILABLE; and none of [select],
    [deselect] and [book] changes a BOOKED or an UNAVAILABLE seat. *)
Theorem seat_methods_status_rule (s : SeatImpl) :
  (status s = AVAILABLE ->
     deselect (select s) = s /\ book s = s /\
     book (select s) = set_status BOOKED s) /\
  (status s = SELECTED ->
     select (deselect s) = s /\ select s = s /\
     book s = set_status BOOKED s) /\
  (status s = BOOKED \/ status s = UNAVAILABLE ->
     select s = s /\ deselect s = s /\ book s = s).
Proof.
  unfold select, deselect, book, isAvailable.
  destruct s as [i rw n t st p]. cbn.
  split; [| split]; [intros -> .. | intros [-> | ->]]; cbn; auto.
Qed.

Lemma seat_methods_status_rule_witness :
  deselect (select (mkSeat "SHW-1-A1" (Some "A") 1 REGULAR AVAILABLE (JS.of_Z 50000)))
  = mkSeat "SHW-1-A1" (Some "A") 1 REGULAR AVAILABLE (JS.of_Z 50000).
Proof.
  destruct (seat_methods_status_rule
              (mkSeat "SHW-1-A1" (Some "A") 1 REGULAR AVAILABLE (JS.of_Z 50000)))
    as [Havailable _].
  apply Havailable. reflexivity.
Defined.

End SeatManagerSpec.

(** * Properties of the command history *)

Module InvokerSpec.

Import Seat SeatSelection SeatManagerSpec.

(** *** What [execute] and [executeCommand] touch *)

Lemma execute_invoker (r : ref) (w : World) :
  invoker (snd (execute r w)) = invoker w.
Proof.
  unfold execute.
  destruct (objects w !! r) as [[code [] | code [] | codes old []] |];
    try reflexivity.
  - destruct (selectSeat code (manager w)) as [[] m]; reflexivity.
  - destruct (deselectSeat code (manager w)) as [[] m]; reflexivity.
  - destruct (selectEach codes (manager w)) as [succ m]; reflexivity.
Qed.

Lemma execute_objects_other (r r' : ref) (w : World) :
  r' <> r -> objects (snd (execute r w)) !! r' = objects w !! r'.
Proof.
  intros Hne. unfold execute.
  destruct (objects w !! r) as [[code [] | code [] | codes old []] |];
    try reflexivity.
  - destruct (selectSeat code (manager w)) as [[] m]; cbn;
      [apply lookup_insert_ne; congruence | reflexivity].
  - destruct (deselectSeat code (manager w)) as [[] m]; cbn;
      [apply lookup_insert_ne; congruence | reflexivity].
  - destruct (selectEach codes (manager w)) as [succ m]; cbn.
    apply lookup_insert_ne; congruence.
Qed.

Lemma executeCommand_objects_other (r r' : ref) (w : World) :
  r' <> r -> objects (snd (executeCommand r w)) !! r' = objects w !! r'.
Proof.
  intros Hne. unfold executeCommand.
  pose proof (execute_objects_other r r' w Hne) as H.
  destruct (execute r w) as [[] w']; cbn in *; exact H.
Qed.

Lemma executeCommand_false (r : ref) (w : World) :
  fst (executeCommand r w) = false ->
  fst (execute r w) = false /\
  executeCommand r w = (false, snd (execute r w)).
Proof.
  unfold executeCommand. destruct (execute r w) as [[] w']; cbn.
  - discriminate.
  - auto.
Qed.

(** C3, as the code has it.  When [executeCommand] returns true the redo
    stack is empty afterwards, and a [redo] that follows at once returns
    false and changes nothing.  When it returns false the two stacks are
    as they were before the call. *)
Theorem executeCommand_clears_redo (command : ref) (w : World) :
  (fst (executeCommand command w) = true ->
     redoStack (invoker (snd (executeCommand command w))) = [] /\
     redo (snd (executeCommand command w))
       = (false, snd (executeCommand command w))) /\
  (fst (executeCommand command w) = false ->
     invoker (snd (executeCommand command w)) = invoker w).
Proof.
  split.
  - unfold executeCommand.
    destruct (execute command w) as [[] w']; cbn; [| discriminate].
    intros _. split; reflexivity.
  - intros Hf. apply executeCommand_false in Hf as [_ ->]. cbn.
    apply execute_invoker.
Qed.

(** A1 is selected and the selection undone, so that the redo stack holds
    that command; the command for A2 then succeeds, the redo stack is
    empty and [redo] returns false. *)
Lemma executeCommand_clears_redo_witness :
  let w1 := snd (executeCommand 0%nat (worldA1A2 None)) in
  let w2 := snd (undo w1) in
  redoStack (invoker w2) = [0%nat] /\
  fst (executeCommand 1%nat w2) = true /\
  redoStack (invoker (snd (executeCommand 1%nat w2))) = [] /\
  fst (redo (snd (executeCommand 1%nat w2))) = false.
Proof.
  intros w1 w2.
  destruct (executeCommand_clears_redo 1%nat w2) as [Htrue _].
  assert (Hok : fst (executeCommand 1%nat w2) = true)
    by (vm_compute; reflexivity).
  destruct (Htrue Hok) as [Hempty Hredo].
  split; [vm_compute; reflexivity |]. split; [exact Hok |].
  split; [exact Hempty |]. rewrite Hredo. reflexivity.
Defined.

(** C3, as the claim states it, fails: A1 is selected and the selection
    undone, so that the redo stack holds that command; the command for the
    missing seat Z9 then fails, the redo stack still holds the first
    command, and [redo] returns true. *)
Lemma failed_command_keeps_redo :
  let w1 := snd (executeCommand 0%nat worldA1Z9) in
  let w2 := snd (undo w1) in
  redoStack (invoker w2) = [0%nat] /\
  fst (executeCommand 1%nat w2) = false /\
  redoStack (invoker (snd (executeCommand 1%nat w2))) = [0%nat] /\
  fst (redo (snd (executeCommand 1%nat w2))) = true.
Proof. cbv zeta. repeat apply conj; vm_compute; reflexivity. Qed.

(** *** The batch command *)

Lemma selectSeat_keeps_selected (seatCode code : string) (m : SeatManager) :
  (exists seat, seats m !! code = Some seat /\ status seat = SELECTED) ->
  exists seat,
    seats (snd (selectSeat seatCode m)) !! code = Some seat /\
    status seat = SELECTED.
Proof.
  intros (seat & Hl & Hs).
  destruct (fst (selectSeat seatCode m)) eqn:Hfst.
  - apply selectSeat_true in Hfst as (seat' & Hl' & Hs').
    rewrite (selectSeat_success _ _ _ Hl' Hs'). cbn.
    rewrite lookup_insert. case_decide as Hcode.
    + eexists. split; reflexivity.
    + eauto.
  - rewrite (selectSeat_false _ _ Hfst). cbn. eauto.
Qed.

(** Every code the batch loop records is the code of a seat that the loop
    leaves SELECTED. *)
Lemma selectEach_selected (seatCodes : list string) (m : SeatManager)
    (code : string) :
  code ∈ fst (selectEach seatCodes m) ->
  exists seat,
    seats (snd (selectEach seatCodes m)) !! code = Some seat /\
    status seat = SELECTED.
Proof.
  unfold selectEach. revert code.
  apply (foldl_preserves
           (fun p : list string * SeatManager =>
              forall code, code ∈ fst p ->
                exists seat,
                  seats (snd p) !! code = Some seat /\ status seat = SELECTED)).
  - intros [acc m'] c IH code. cbn in IH.
    destruct (fst (selectSeat c m')) eqn:Hfst.
    + pose proof Hfst as (seat & Hl & Hs)%selectSeat_true.
      pose proof (selectSeat_keeps_selected c code m') as Hkeep.
      rewrite (selectSeat_success _ _ _ Hl Hs) in *. cbn in *.
      intros [Hin | ->%list_elem_of_singleton]%elem_of_app.
      * apply Hkeep, IH, Hin.
      * rewrite lookup_insert_eq. eexists. split; reflexivity.
    + rewrite (selectSeat_false _ _ Hfst). cbn. apply IH.
  - cbn. intros code Hin. apply elem_of_nil in Hin as [].
Qed.

(** A command for one seat that [executeCommand] does not push has changed
    nothing: neither the registry nor the command. *)
Lemma single_seat_failure_changes_nothing (command : ref) (code : string)
    (executed : bool) (w : World) :
  objects w !! command = Some (SelectSeatCommand code executed) \/
  objects w !! command = Some (DeselectSeatCommand code executed) ->
  fst (executeCommand command w) = false ->
  snd (executeCommand command w) = w.
Proof.
  intros Hobj Hf. apply executeCommand_false in Hf as [Hf ->].
  revert Hf. unfold execute.
  destruct Hobj as [-> | ->]; destruct executed; try reflexivity.
  - destruct (selectSeat code (manager w)) as [[] m] eqn:Hsel; cbn;
      [discriminate |].
    intros _. pose proof (selectSeat_false code (manager w)) as Hm.
    rewrite Hsel in Hm. specialize (Hm eq_refl). injection Hm as ->.
    destruct w; reflexivity.
  - destruct (deselectSeat code (manager w)) as [[] m] eqn:Hsel; cbn;
      [discriminate |].
    intros _. pose proof (deselectSeat_false code (manager w)) as Hm.
    rewrite Hsel in Hm. specialize (Hm eq_refl). injection Hm as ->.
    destruct w; reflexivity.
Qed.

(** The batch command at every input.  For a batch command not yet
    executed, the value [execute] returns says whether every requested
    seat was selected.  When some but not all were, [executeCommand]
    returns false and pushes nothing: the invoker is as it was before the
    call, while the registry is the one the batch loop left, in which the
    seats that were selected stay SELECTED.  Only when every requested
    seat was selected does [executeCommand] return true and push the
    command. *)
Theorem partial_batch_not_pushed (command : ref)
    (seatCodes old : list string) (w : World) :
  objects w !! command = Some (SelectMultipleSeatsCommand seatCodes old false) ->
  let successfullyCodes := fst (selectEach seatCodes (manager w)) in
  fst (execute command w)
    = Nat.eqb (length successfullyCodes) (length seatCodes) /\
  ((0 < length successfullyCodes < length seatCodes)%nat ->
     fst (executeCommand command w) = false /\
     invoker (snd (executeCommand command w)) = invoker w /\
     manager (snd (executeCommand command w))
       = snd (selectEach seatCodes (manager w)) /\
     forall code, code ∈ successfullyCodes ->
       exists seat,
         seats (manager (snd (executeCommand command w))) !! code = Some seat /\
         status seat = SELECTED) /\
  (length successfullyCodes = length seatCodes ->
     fst (executeCommand command w) = true /\
     undoStack (invoker (snd (executeCommand command w)))
       = if (maxHistorySize (invoker w)
               <? Z.of_nat (length (undoStack (invoker w) ++ [command])))
         then tail (undoStack (invoker w) ++ [command])
         else undoStack (invoker w) ++ [command]).
Proof.
  intros Hobj successfullyCodes.
  pose proof (selectEach_selected seatCodes (manager w)) as Hsel.
  fold successfullyCodes in Hsel. subst successfullyCodes.
  unfold executeCommand, execute. rewrite Hobj.
  destruct (selectEach seatCodes (manager w)) as [succ m] eqn:Heach.
  cbn [fst snd] in *. split; [reflexivity |]. split.
  - intros [_ Hlt].
    replace (Nat.eqb (length succ) (length seatCodes)) with false
      by (symmetry; apply Nat.eqb_neq; lia).
    cbn. repeat split. exact Hsel.
  - intros Heq. rewrite Heq, Nat.eqb_refl. cbn. split; reflexivity.
Qed.

Lemma partial_batch_not_pushed_witness :
  fst (executeCommand 0%nat worldBatch) = false /\
  invoker (snd (executeCommand 0%nat worldBatch)) = invoker worldBatch.
Proof.
  destruct (partial_batch_not_pushed 0%nat ["A1"; "A2"; "A3"] [] worldBatch
              eq_refl) as (_ & Hpartial & _).
  destruct Hpartial as (Hf & Hinv & _).
  - vm_compute. split; lia.
  - split; assumption.
Defined.

(** C4.  The code at the failing input: with A2 booked, the batch for A1,
    A2 and A3 selects A1 and A3 only.  The command records these two codes
    for its [undo] and is marked as executed, yet [execute] returns false,
    so that [executeCommand] returns false and pushes nothing: the undo
    stack stays empty, [undo] returns false and A1 and A3 stay selected,
    and a second [executeCommand] on the command is refused as well. *)
Lemma partial_batch_left_out_of_history :
  let w1 := snd (executeCommand 0%nat worldBatch) in
  fst (selectEach ["A1"; "A2"; "A3"] (manager worldBatch)) = ["A1"; "A3"] /\
  selectedSeats (manager w1) = ["A1"; "A3"] /\
  fst (executeCommand 0%nat worldBatch) = false /\
  undoStack (invoker w1) = [] /\
  fst (undo w1) = false /\
  objects w1 !! 0%nat
    = Some (SelectMultipleSeatsCommand ["A1"; "A2"; "A3"] ["A1"; "A3"] true) /\
  selectedSeats (manager (snd (undo w1))) = ["A1"; "A3"] /\
  fst (executeCommand 0%nat w1) = false /\
  undoStack (invoker (snd (executeCommand 0%nat w1))) = [].
Proof. cbv zeta. repeat apply conj; vm_compute; reflexivity. Qed.


(** *** Select, then undo *)

(** Selecting an available seat and deselecting it gives the registry
    back: the seat record, price and category included, and the
    selected-seats set. *)
Lemma deselect_select (code : string) (m : SeatManager) (seat : SeatImpl) :
  consistent m -> seats m !! code = Some seat -> status seat = AVAILABLE ->
  deselectSeat code (snd (selectSeat code m)) = (true, m).
Proof.
  intros [_ Hiff] Hl Hs. rewrite (selectSeat_success _ _ _ Hl Hs). cbn.
  rewrite (deselectSeat_success _ _ (set_status SELECTED seat))
    by first [apply lookup_insert_eq | reflexivity].
  cbn. rewrite insert_insert_eq.
  replace (set_status AVAILABLE (set_status SELECTED seat)) with seat
    by (destruct seat; cbn in Hs; subst; reflexivity).
  rewrite (insert_id _ _ _ Hl).
  pose proof (Set_delete_add code (selectedSeats m)) as Hback.
  unfold Set_delete in Hback. rewrite Hback.
  - destruct m; reflexivity.
  - intros (seat' & Hl' & Hs')%Hiff. congruence.
Qed.

Lemma executeCommand_select_true (r : ref) (code : string) (w : World) :
  selectsSeat w r code -> fst (executeCommand r w) = true ->
  objects w !! r = Some (SelectSeatCommand code false) /\
  exists seat, seats (manager w) !! code = Some seat /\ status seat = AVAILABLE.
Proof.
  intros [executed Hobj]. unfold executeCommand, execute. rewrite Hobj.
  destruct executed; [discriminate |].
  destruct (selectSeat code (manager w)) as [success m] eqn:Hsel.
  destruct success; cbn; [| discriminate].
  intros _. split; [reflexivity |].
  apply selectSeat_true. rewrite Hsel. reflexivity.
Qed.

Lemma executeCommand_select (r : ref) (code : string) (w : World)
    (seat : SeatImpl) :
  objects w !! r = Some (SelectSeatCommand code false) ->
  seats (manager w) !! code = Some seat -> status seat = AVAILABLE ->
  executeCommand r w =
  (true,
   mkWorld (snd (selectSeat code (manager w)))
     (<[r := SelectSeatCommand code true]> (objects w))
     (mkInvoker
        (if (maxHistorySize (invoker w)
               <? Z.of_nat (length (undoStack (invoker w) ++ [r])))
         then tail (undoStack (invoker w) ++ [r])
         else undoStack (invoker w) ++ [r])
        [] (maxHistorySize (invoker w)))).
Proof.
  intros Hobj Hl Hs. unfold executeCommand, execute. rewrite Hobj.
  rewrite (selectSeat_success _ _ _ Hl Hs). reflexivity.
Qed.

Lemma undo_select (r : ref) (code : string) (w : World) (us : list ref)
    (seat : SeatImpl) :
  undoStack (invoker w) = us ++ [r] ->
  objects w !! r = Some (SelectSeatCommand code true) ->
  seats (manager w) !! code = Some seat -> status seat = SELECTED ->
  undo w =
  (true,
   mkWorld (snd (deselectSeat code (manager w)))
     (<[r := SelectSeatCommand code false]> (objects w))
     (mkInvoker us (redoStack (invoker w) ++ [r])
        (maxHistorySize (invoker w)))).
Proof.
  intros Hus Hobj Hl Hs. unfold undo, undoCommand.
  rewrite Hus, last_snoc, removelast_last. cbn. rewrite Hobj. cbn.
  rewrite (deselectSeat_success _ _ _ Hl Hs). reflexivity.
Qed.

Lemma executeCommands_cons (r : ref) (rs : list ref) (w : World) :
  executeCommands (r :: rs) w =
  (fst (executeCommand r w) :: fst (executeCommands rs (snd (executeCommand r w))),
   snd (executeCommands rs (snd (executeCommand r w)))).
Proof.
  cbn. destruct (executeCommand r w) as [b w1]. cbn.
  destruct (executeCommands rs w1). reflexivity.
Qed.

Lemma undoTimes_S_last (n : nat) (w : World) :
  undoTimes (S n) w =
  (fst (undoTimes n w) ++ [fst (undo (snd (undoTimes n w)))],
   snd (undo (snd (undoTimes n w)))).
Proof.
  revert w. induction n as [| n IH]; intros w.
  - cbn. destruct (undo w). reflexivity.
  - change (undoTimes (S (S n)) w)
      with (let '(b, w1) := undo w in
            let '(bs, w2) := undoTimes (S n) w1 in (b :: bs, w2)).
    change (undoTimes (S n) w)
      with (let '(b, w1) := undo w in
            let '(bs, w2) := undoTimes n w1 in (b :: bs, w2)).
    destruct (undo w) as [b w1]. rewrite IH.
    destruct (undoTimes n w1) as [bs w2]. reflexivity.
Qed.

(** A command already executed is not among commands that all execute
    with success. *)
Lemma executed_not_among (r : ref) (code : string) (rs : list ref) (w : World) :
  objects w !! r = Some (SelectSeatCommand code true) ->
  fst (executeCommands rs w) = replicate (length rs) true ->
  r ∉ rs.
Proof.
  revert w. induction rs as [| r1 rs IH]; intros w Hobj Hall.
  - apply not_elem_of_nil.
  - rewrite executeCommands_cons in Hall. cbn in Hall.
    injection Hall as Hhd Htl.
    apply not_elem_of_cons. split.
    + intros ->. unfold executeCommand, execute in Hhd. rewrite Hobj in Hhd.
      discriminate Hhd.
    + apply (IH (snd (executeCommand r1 w))); [| exact Htl].
      destruct (decide (r = r1)) as [-> | Hne].
      * unfold executeCommand, execute in Hhd. rewrite Hobj in Hhd.
        discriminate Hhd.
      * rewrite executeCommand_objects_other by exact Hne. exact Hobj.
Qed.

(** The stack after a push, when the entries [suf] at its top and the new
    one fit in the history: only entries below [suf] can be dropped. *)
Lemma push_keeps_top (pre suf : list ref) (r : ref) (max : Z) :
  Z.of_nat (length suf + 1) ≤ max ->
  exists k,
    (if (max <? Z.of_nat (length ((pre ++ suf) ++ [r])))
     then tail ((pre ++ suf) ++ [r]) else (pre ++ suf) ++ [r])
    = drop k pre ++ (suf ++ [r]).
Proof.
  intros Hfit. destruct (max <? _) eqn:Hcmp.
  - apply Z.ltb_lt in Hcmp. rewrite !length_app in Hcmp. cbn in Hcmp.
    destruct pre as [| p pre]; [cbn in Hcmp; lia |].
    exists 1%nat. cbn. rewrite <- app_assoc. reflexivity.
  - exists 0%nat. cbn. rewrite <- app_assoc. reflexivity.
Qed.

(** The induction behind C5.  [suf] is the part of the undo stack that
    must survive the run: together with the new commands it fits in the
    history. *)
Lemma select_undo_bracket (commands : list ref) :
  forall (w : World) (pre suf : list ref),
    consistent (manager w) ->
    (forall r, r ∈ commands -> exists code, selectsSeat w r code) ->
    undoStack (invoker w) = pre ++ suf ->
    Z.of_nat (length suf + length commands) ≤ maxHistorySize (invoker w) ->
    fst (executeCommands commands w) = replicate (length commands) true ->
    let w2 := snd (undoTimes (length commands) (snd (executeCommands commands w))) in
    fst (undoTimes (length commands) (snd (executeCommands commands w)))
      = replicate (length commands) true /\
    manager w2 = manager w /\
    (exists k, undoStack (invoker w2) = drop k pre ++ suf) /\
    maxHistorySize (invoker w2) = maxHistorySize (invoker w) /\
    (forall r, r ∉ commands -> objects w2 !! r = objects w !! r) /\
    (forall r code, r ∈ commands -> selectsSeat w r code ->
       exists seat,
         seats (manager w) !! code = Some seat /\ status seat = AVAILABLE).
Proof.
  induction commands as [| r rs IH]; intros w pre suf Hcons Hsel Hus Hfit Hall.
  - cbn. repeat split.
    + exists 0%nat. exact Hus.
    + intros r code Hin. apply elem_of_nil in Hin as [].
  - rewrite executeCommands_cons in Hall. cbn in Hall.
    injection Hall as Hhd Htl.
    destruct (Hsel r) as [c Hr]; [apply list_elem_of_here |].
    destruct (executeCommand_select_true _ _ _ Hr Hhd)
      as (Hobj & seat & Hl & Hs).
    pose proof (executeCommand_select _ _ _ _ Hobj Hl Hs) as Hexec.
    rewrite Hus in Hexec.
    destruct (push_keeps_top pre suf r (maxHistorySize (invoker w)))
      as [k0 Hpush]; [cbn in Hfit; lia |].
    rewrite Hpush in Hexec. clear Hpush.
    set (w1 := snd (executeCommand r w)) in *.
    assert (Hw1 : w1 =
      mkWorld (snd (selectSeat c (manager w)))
        (<[r := SelectSeatCommand c true]> (objects w))
        (mkInvoker (drop k0 pre ++ (suf ++ [r])) []
           (maxHistorySize (invoker w))))
      by (unfold w1; rewrite Hexec; reflexivity).
    assert (Hobj1 : objects w1 !! r = Some (SelectSeatCommand c true))
      by (rewrite Hw1; apply lookup_insert_eq).
    assert (Hnotin : r ∉ rs) by (eapply executed_not_among; eassumption).
    assert (Hsel1 : forall r' code,
              r' <> r -> selectsSeat w1 r' code <-> selectsSeat w r' code).
    { intros r' code Hne. unfold selectsSeat. rewrite Hw1. cbn.
      rewrite lookup_insert_ne by congruence. reflexivity. }
    destruct (IH w1 (drop k0 pre) (suf ++ [r])) as (Hres & Hm & [k Hst] & Hmax & Hobjs & Hav).
    { rewrite Hw1. cbn. apply consistent_selectSeat, Hcons. }
    { intros r' Hin. destruct (Hsel r') as [code Hcode];
        [apply list_elem_of_further, Hin |].
      exists code. apply Hsel1; [| exact Hcode]. intros ->. contradiction. }
    { rewrite Hw1. reflexivity. }
    { rewrite Hw1. cbn. rewrite length_app. cbn in *. lia. }
    { exact Htl. }
    rewrite executeCommands_cons. cbn [snd length]. fold w1.
    set (w2 := snd (executeCommands rs w1)) in *.
    set (w3 := snd (undoTimes (length rs) w2)) in *.
    rewrite undoTimes_S_last. fold w3. cbn [fst snd].
    assert (Hselected :
      seats (manager w3) !! c = Some (set_status SELECTED seat)).
    { rewrite Hm, Hw1. cbn. rewrite (selectSeat_success _ _ _ Hl Hs). cbn.
      apply lookup_insert_eq. }
    assert (Hundo := undo_select r c w3 (drop k (drop k0 pre) ++ suf)
                       (set_status SELECTED seat)).
    rewrite Hst, app_assoc in Hundo.
    specialize (Hundo eq_refl).
    rewrite (Hobjs r Hnotin) in Hundo.
    specialize (Hundo Hobj1 Hselected eq_refl).
    rewrite Hundo. cbn [fst snd manager invoker objects undoStack maxHistorySize].
    rewrite Hm. replace (manager w1) with (snd (selectSeat c (manager w)))
      by (rewrite Hw1; reflexivity).
    rewrite (deselect_select _ _ _ Hcons Hl Hs). cbn [snd].
    split; [| split; [| split; [| split; [| split]]]].
    + rewrite Hres. symmetry. apply replicate_S_end.
    + reflexivity.
    + exists (k0 + k)%nat. rewrite drop_drop. reflexivity.
    + rewrite Hmax, Hw1. reflexivity.
    + intros r' [Hne Hout]%not_elem_of_cons.
      rewrite lookup_insert_ne by congruence.
      rewrite (Hobjs r' Hout), Hw1. cbn.
      apply lookup_insert_ne. congruence.
    + intros r' code [-> | Hin]%elem_of_cons Hcode.
      * destruct Hcode as [e He]. rewrite Hobj in He.
        injection He as <- _. eauto.
      * assert (Hne : r' <> r) by (intros ->; contradiction).
        destruct (Hav r' code Hin) as (seat' & Hl' & Hs');
          [apply Hsel1; assumption |].
        rewrite Hw1 in Hl'. cbn in Hl'.
        rewrite (selectSeat_success _ _ _ Hl Hs) in Hl'. cbn in Hl'.
        rewrite lookup_insert in Hl'. case_decide as Hc.
        -- injection Hl' as <-. discriminate Hs'.
        -- eauto.
Qed.


(** C5, as the code has it.  In a registry whose selected-seats set matches
    the seat statuses, when N single-seat select commands all execute with
    success through [executeCommand] and N is at most the history size of
    the invoker, the N calls of [undo] that follow all return true and
    give the registry back as it was before the commands: the
    selected-seats set is what it was (empty if it was empty), and each of
    the N seats is the record it was, with status AVAILABLE and the price
    and category it had. *)
Theorem selects_then_undos_restore (commands : list ref) (w : World) :
  consistent (manager w) ->
  (forall r, r ∈ commands -> exists code, selectsSeat w r code) ->
  Z.of_nat (length commands) ≤ maxHistorySize (invoker w) ->
  fst (executeCommands commands w) = replicate (length commands) true ->
  let w1 := snd (executeCommands commands w) in
  let w2 := snd (undoTimes (length commands) w1) in
  fst (undoTimes (length commands) w1) = replicate (length commands) true /\
  manager w2 = manager w /\
  selectedSeats (manager w2) = selectedSeats (manager w) /\
  forall r code, r ∈ commands -> selectsSeat w r code ->
    exists seat,
      seats (manager w) !! code = Some seat /\
      seats (manager w2) !! code = Some seat /\
      status seat = AVAILABLE.
Proof.
  intros Hcons Hsel Hfit Hall w1 w2.
  destruct (select_undo_bracket commands w (undoStack (invoker w)) []
              Hcons Hsel) as (Hres & Hm & _ & _ & _ & Hav).
  - rewrite app_nil_r. reflexivity.
  - cbn. exact Hfit.
  - exact Hall.
  - fold w1 in Hres, Hm. fold w2 in Hm.
    split; [exact Hres |]. split; [exact Hm |]. split; [rewrite Hm; reflexivity |].
    intros r code Hin Hcode. destruct (Hav r code Hin Hcode) as (seat & Hl & Hs).
    exists seat. rewrite Hm. auto.
Qed.

Lemma selects_then_undos_restore_witness :
  fst (undoTimes 2 (snd (executeCommands [0%nat; 1%nat] (worldA1A2 None))))
    = [true; true] /\
  manager (snd (undoTimes 2 (snd (executeCommands [0%nat; 1%nat] (worldA1A2 None)))))
    = manager (worldA1A2 None).
Proof.
  destruct (selects_then_undos_restore [0%nat; 1%nat] (worldA1A2 None))
    as (Hres & Hm & _).
  - apply noneSelected_consistent, noneSelected_initializeSeats.
  - intros r [-> | [-> | Hin]%elem_of_cons]%elem_of_cons.
    + exists "A1", false. reflexivity.
    + exists "A2", false. reflexivity.
    + apply elem_of_nil in Hin as [].
  - vm_compute. discriminate.
  - vm_compute. reflexivity.
  - split; [exact Hres | exact Hm].
Defined.

(** C5, as the claim states it, fails once the commands outnumber the
    history size: with an invoker constructed for a history of one
    command, A1 and A2 are selected with success, the second push drops
    the command for A1 from the undo stack, the second [undo] returns
    false, and A1 stays selected. *)
Lemma history_limit_blocks_undo :
  let w := worldA1A2 (Some 1) in
  let w1 := snd (executeCommands [0%nat; 1%nat] w) in
  let w2 := snd (undoTimes 2 w1) in
  selectedSeats (manager w) = [] /\
  fst (executeCommands [0%nat; 1%nat] w) = [true; true] /\
  fst (undoTimes 2 w1) = [true; false] /\
  selectedSeats (manager w2) = ["A1"] /\
  status <$> seats (manager w2) !! "A1" = Some SELECTED /\
  manager w2 <> manager w.
Proof.
  cbv zeta. repeat apply conj; try (vm_compute; reflexivity).
  intros H. apply (f_equal selectedSeats) in H. vm_compute in H.
  discriminate H.
Qed.

(** The same with the defaults of the controller: after 51 selections in
    the 10 by 15 registry, with a history of 50 commands, the last of the
    51 calls of [undo] returns false and A1 stays selected. *)
Lemma default_history_blocks_undo :
  let w := worldDefaults 51 in
  let w1 := snd (executeCommands (seq 0 51) w) in
  let w2 := snd (undoTimes 51 w1) in
  fst (executeCommands (seq 0 51) w) = replicate 51 true /\
  fst (undoTimes 51 w1) = replicate 50 true ++ [false] /\
  selectedSeats (manager w2) = ["A1"].
Proof. cbv zeta. repeat apply conj; vm_compute; reflexivity. Qed.

(** Why C5 asks for a selected-seats set that matches the statuses: in a
    registry initialised a second time while A1 was selected, A1 is
    AVAILABLE and still in the set; selecting it and undoing the selection
    takes it out of the set. *)
Lemma stale_selection_not_restored :
  let w := worldOf registryInitializedTwice [new_SelectSeatCommand "A1"] None in
  let w1 := snd (executeCommand 0%nat w) in
  selectedSeats (manager w) = ["A1"] /\
  status <$> seats (manager w) !! "A1" = Some AVAILABLE /\
  fst (executeCommand 0%nat w) = true /\
  fst (undo w1) = true /\
  selectedSeats (manager (snd (undo w1))) = [].
Proof. cbv zeta. repeat apply conj; vm_compute; reflexivity. Qed.

(** The scenarios of tests/behavioral/Command.test.ts, through the
    controller. *)
Lemma controller_scenarios :
  let w := worldOf (freshRegistry 5 5) [] None in
  let w1 := snd (Controller_selectSeat "A1" w) in
  let w2 := snd (undo w1) in
  let w3 := snd (redo w2) in
  let b1 := snd (Controller_selectMultipleSeats ["C1"; "C2"; "C3"] w) in
  fst (undo w) = false /\ fst (redo w) = false /\
  fst (Controller_selectSeat "A1" w) = true /\
  getCode <$> getSelectedSeats (manager w1) = ["A1"] /\
  fst (undo w1) = true /\ getSelectedSeats (manager w2) = [] /\
  fst (redo w2) = true /\
  getCode <$> getSelectedSeats (manager w3) = ["A1"] /\
  length (getSelectedSeats (manager b1)) = 3%nat /\
  getSelectedSeats (manager (snd (undo b1))) = [].
Proof. cbv zeta. repeat apply conj; vm_compute; reflexivity. Qed.

(** *** Further properties of the commands and of the history *)

Lemma undoCommand_invoker (r : ref) (w : World) :
  invoker (snd (undoCommand r w)) = invoker w.
Proof.
  unfold undoCommand.
  destruct (objects w !! r) as [[code [] | code [] | codes succ []] |];
    try reflexivity; cbn.
  - destruct (deselectSeat code (manager w)) as [[] m]; reflexivity.
  - destruct (selectSeat code (manager w)) as [[] m]; reflexivity.
Qed.

(** The batch loop, one code at a time. *)
Lemma selectEach_cons (c : string) (cs : list string) (m : SeatManager) :
  selectEach (c :: cs) m =
  (if fst (selectSeat c m)
   then c :: fst (selectEach cs (snd (selectSeat c m)))
   else fst (selectEach cs (snd (selectSeat c m))),
   snd (selectEach cs (snd (selectSeat c m)))).
Proof.
  unfold selectEach.
  set (step := fun '(successfullyCodes, m) code =>
                 let '(ok, m) := selectSeat code m in
                 if ok then (successfullyCodes ++ [code], m)
                 else (successfullyCodes, m)).
  assert (Hacc : forall l acc m0,
            foldl step (acc, m0) l
            = (acc ++ fst (foldl step ([], m0) l), snd (foldl step ([], m0) l))).
  { induction l as [| x l IH]; intros acc m0; cbn.
    - rewrite app_nil_r. reflexivity.
    - destruct (selectSeat x m0) as [[] m1]; cbn.
      + rewrite (IH (acc ++ [x])), (IH [x]). cbn.
        rewrite <- app_assoc. reflexivity.
      + apply IH. }
  change (foldl step ([], m) (c :: cs)) with (foldl step (step ([], m) c) cs).
  assert (Hstep : step ([], m) c
                  = if fst (selectSeat c m) then ([c], snd (selectSeat c m))
                    else ([], snd (selectSeat c m)))
    by (unfold step; destruct (selectSeat c m) as [[] ?]; reflexivity).
  rewrite Hstep. destruct (fst (selectSeat c m)).
  - rewrite (Hacc cs [c]). reflexivity.
  - destruct (foldl step ([], (selectSeat c m).2) cs). reflexivity.
Qed.

Lemma deselectEach_cons (c : string) (cs : list string) (m : SeatManager) :
  deselectEach (c :: cs) m = snd (deselectSeat c (deselectEach cs m)).
Proof.
  unfold deselectEach. rewrite reverse_cons, foldl_app. reflexivity.
Qed.

Lemma consistent_selectEach (cs : list string) (m : SeatManager) :
  consistent m -> consistent (snd (selectEach cs m)).
Proof.
  revert m. induction cs as [| c cs IH]; intros m Hm; [exact Hm |].
  rewrite selectEach_cons. cbn. apply IH, consistent_selectSeat, Hm.
Qed.

Lemma consistent_deselectEach (cs : list string) (m : SeatManager) :
  consistent m -> consistent (deselectEach cs m).
Proof.
  intros Hm. unfold deselectEach. apply foldl_preserves; [| exact Hm].
  intros m' c Hm'. apply consistent_deselectSeat, Hm'.
Qed.

(** Deselecting, last first, the codes the batch loop selected gives the
    registry back. *)
Lemma deselectEach_selectEach (cs : list string) (m : SeatManager) :
  consistent m ->
  deselectEach (fst (selectEach cs m)) (snd (selectEach cs m)) = m.
Proof.
  revert m. induction cs as [| c cs IH]; intros m Hm; [reflexivity |].
  rewrite selectEach_cons. cbn [fst snd].
  destruct (fst (selectSeat c m)) eqn:Hfst.
  - rewrite deselectEach_cons, IH by (apply consistent_selectSeat, Hm).
    apply selectSeat_true in Hfst as (seat & Hl & Hs).
    rewrite (deselect_select _ _ _ Hm Hl Hs). reflexivity.
  - rewrite (selectSeat_false _ _ Hfst). cbn. apply IH, Hm.
Qed.

(** X18.  A batch command undoes what it did, partial success included: in
    a registry whose selected set matches the statuses, [execute] on a
    batch not yet executed followed by [undo] on the same object returns
    true and gives the registry back as it was, with the object ready to
    be executed again. *)
Theorem batch_execute_then_undo (r : ref) (seatCodes old : list string)
    (w : World) :
  consistent (manager w) ->
  objects w !! r = Some (SelectMultipleSeatsCommand seatCodes old false) ->
  let w2 := snd (undoCommand r (snd (execute r w))) in
  fst (undoCommand r (snd (execute r w))) = true /\
  manager w2 = manager w /\
  objects w2 !! r = Some (SelectMultipleSeatsCommand seatCodes [] false) /\
  invoker w2 = invoker w.
Proof.
  intros Hm Hobj. unfold execute. rewrite Hobj.
  pose proof (deselectEach_selectEach seatCodes (manager w) Hm) as Hback.
  destruct (selectEach seatCodes (manager w)) as [succ m1]. cbn [fst snd] in *.
  unfold undoCommand. cbn [objects]. rewrite lookup_insert_eq. cbn.
  rewrite Hback, lookup_insert_eq. auto.
Qed.

Lemma batch_execute_then_undo_witness :
  manager (snd (undoCommand 0%nat (snd (execute 0%nat worldBatch))))
  = manager worldBatch.
Proof.
  apply (batch_execute_then_undo 0%nat ["A1"; "A2"; "A3"] [] worldBatch).
  - apply noneSelected_consistent, noneSelected_initializeSeats.
  - reflexivity.
Defined.

Lemma push_top (us : list ref) (r : ref) (max : Z) :
  1 ≤ max ->
  exists k,
    (if (max <? Z.of_nat (length (us ++ [r])))
     then tail (us ++ [r]) else us ++ [r])
    = drop k us ++ [r].
Proof.
  intros Hmax.
  destruct (push_keeps_top us [] r max) as [k Hk]; [cbn; lia |].
  rewrite app_nil_r in Hk. exists k. exact Hk.
Qed.

(** X19.  In a registry whose selected set has no code twice and holds
    exactly the codes of the seats whose status is SELECTED, a batch that
    selects every seat it asks for is one entry of the history: with a
    history size of at least 1, [executeCommand] returns true, and the
    [undo] that follows returns true, deselects the whole batch -- the
    registry is as it was before the batch -- and moves the command to the
    redo stack.  A batch of no seat at all is such a batch.  The
    assumption on the registry is needed: where a requested code is in
    the selected set already while its seat is AVAILABLE, the [undo] takes
    out of the set a code that was in it before the batch. *)
Theorem batch_is_one_history_entry (r : ref) (seatCodes old : list string)
    (w : World) :
  consistent (manager w) ->
  objects w !! r = Some (SelectMultipleSeatsCommand seatCodes old false) ->
  length (fst (selectEach seatCodes (manager w))) = length seatCodes ->
  1 ≤ maxHistorySize (invoker w) ->
  let w1 := snd (executeCommand r w) in
  fst (executeCommand r w) = true /\
  last (undoStack (invoker w1)) = Some r /\
  fst (undo w1) = true /\
  manager (snd (undo w1)) = manager w /\
  redoStack (invoker (snd (undo w1))) = [r].
Proof.
  intros Hm Hobj Hfull Hmax.
  pose proof (deselectEach_selectEach seatCodes (manager w) Hm) as Hback.
  unfold executeCommand, execute. rewrite Hobj.
  destruct (selectEach seatCodes (manager w)) as [succ m1]. cbn [fst snd] in *.
  rewrite Hfull, Nat.eqb_refl.
  cbn [invoker undoStack maxHistorySize manager objects snd fst].
  destruct (push_top (undoStack (invoker w)) r (maxHistorySize (invoker w)) Hmax)
    as [k ->].
  split; [reflexivity |]. split; [apply last_snoc |].
  unfold undo, undoCommand. cbn [invoker undoStack].
  rewrite last_snoc, removelast_last.
  cbn [objects manager invoker redoStack undoStack maxHistorySize].
  rewrite lookup_insert_eq. cbn. rewrite Hback. auto.
Qed.

Lemma batch_is_one_history_entry_witness :
  let w :=
    worldOf (freshRegistry 5 5)
      [new_SelectMultipleSeatsCommand ["C1"; "C2"; "C3"]] None in
  fst (undo (snd (executeCommand 0%nat w))) = true /\
  manager (snd (undo (snd (executeCommand 0%nat w)))) = manager w.
Proof.
  intros w.
  destruct (batch_is_one_history_entry 0%nat ["C1"; "C2"; "C3"] [] w)
    as (_ & _ & Hundo & Hback & _).
  - apply noneSelected_consistent, noneSelected_initializeSeats.
  - reflexivity.
  - vm_compute. reflexivity.
  - vm_compute. discriminate.
  - split; assumption.
Defined.

Lemma execute_executed (r : ref) (w : World) (c : SeatCommand) :
  objects w !! r = Some c -> isExecuted c = true -> execute r w = (false, w).
Proof.
  intros Hobj He. unfold execute. rewrite Hobj.
  destruct c; cbn in He; subst; reflexivity.
Qed.

Lemma execute_true_marks (r : ref) (w : World) :
  fst (execute r w) = true ->
  exists c, objects (snd (execute r w)) !! r = Some c /\ isExecuted c = true.
Proof.
  unfold execute.
  destruct (objects w !! r) as [[code [] | code [] | codes old []] |] eqn:Hobj;
    try discriminate.
  - destruct (selectSeat code (manager w)) as [[] m]; [| discriminate].
    intros _. cbn. rewrite lookup_insert_eq. eauto.
  - destruct (deselectSeat code (manager w)) as [[] m]; [| discriminate].
    intros _. cbn. rewrite lookup_insert_eq. eauto.
  - destruct (selectEach codes (manager w)) as [succ m].
    intros _. cbn. rewrite lookup_insert_eq. eauto.
Qed.

(** X20.  The [executed] flag guards against replay: [execute] on an
    object already executed, and [undo] on one not executed, return false
    and change nothing; and right after an [execute] that returned true a
    second [execute] on the same object returns false and changes
    nothing. *)
Theorem executed_flag_guards (r : ref) (w : World) :
  (forall c, objects w !! r = Some c -> isExecuted c = true ->
     execute r w = (false, w)) /\
  (forall c, objects w !! r = Some c -> isExecuted c = false ->
     undoCommand r w = (false, w)) /\
  (fst (execute r w) = true ->
     execute r (snd (execute r w)) = (false, snd (execute r w))).
Proof.
  split; [apply execute_executed |]. split.
  - intros c Hobj He. unfold undoCommand. rewrite Hobj.
    destruct c; cbn in He; subst; reflexivity.
  - intros (c & Hobj & He)%execute_true_marks.
    apply (execute_executed _ _ c Hobj He).
Qed.

Lemma executed_flag_guards_witness :
  fst (execute 0%nat (snd (execute 0%nat worldA1Z9))) = false.
Proof.
  destruct (executed_flag_guards 0%nat worldA1Z9) as (_ & _ & H).
  rewrite H; [reflexivity |]. vm_compute. reflexivity.
Defined.



(** *** The two stacks *)

Lemma undo_top (w : World) (us : list ref) (r : ref) :
  undoStack (invoker w) = us ++ [r] ->
  let popped :=
    mkWorld (manager w) (objects w)
      (mkInvoker us (redoStack (invoker w)) (maxHistorySize (invoker w))) in
  undo w =
  (fst (undoCommand r popped),
   mkWorld (manager (snd (undoCommand r popped)))
     (objects (snd (undoCommand r popped)))
     (mkInvoker us
        (if fst (undoCommand r popped)
         then redoStack (invoker w) ++ [r] else redoStack (invoker w))
        (maxHistorySize (invoker w)))).
Proof.
  intros Hus popped. unfold undo. rewrite Hus, last_snoc, removelast_last.
  fold popped. pose proof (undoCommand_invoker r popped) as Hinv.
  destruct (undoCommand r popped) as [[] w']; cbn [fst snd] in *.
  - rewrite Hinv. reflexivity.
  - destruct w' as [m o i]. cbn in Hinv. subst i. reflexivity.
Qed.

Lemma redo_top (w : World) (rs : list ref) (r : ref) :
  redoStack (invoker w) = rs ++ [r] ->
  let popped :=
    mkWorld (manager w) (objects w)
      (mkInvoker (undoStack (invoker w)) rs (maxHistorySize (invoker w))) in
  redo w =
  (fst (execute r popped),
   mkWorld (manager (snd (execute r popped)))
     (objects (snd (execute r popped)))
     (mkInvoker
        (if fst (execute r popped)
         then undoStack (invoker w) ++ [r] else undoStack (invoker w))
        rs (maxHistorySize (invoker w)))).
Proof.
  intros Hrs popped. unfold redo. rewrite Hrs, last_snoc, removelast_last.
  fold popped. pose proof (execute_invoker r popped) as Hinv.
  destruct (execute r popped) as [[] w']; cbn [fst snd] in *.
  - rewrite Hinv. reflexivity.
  - destruct w' as [m o i]. cbn in Hinv. subst i. reflexivity.
Qed.

(** X22.  [undo] and [redo] on an empty stack return false and change
    nothing.  Otherwise each takes the top command off its stack whether
    or not the command then succeeds: on success the command goes on top
    of the other stack, on failure it is dropped from the history. *)
Theorem undo_redo_pop_the_top (w : World) :
  (canUndo w = false -> undo w = (false, w)) /\
  (canRedo w = false -> redo w = (false, w)) /\
  (forall us r, undoStack (invoker w) = us ++ [r] ->
     undoStack (invoker (snd (undo w))) = us /\
     redoStack (invoker (snd (undo w)))
       = if fst (undo w) then redoStack (invoker w) ++ [r]
         else redoStack (invoker w)) /\
  (forall rs r, redoStack (invoker w) = rs ++ [r] ->
     redoStack (invoker (snd (redo w))) = rs /\
     undoStack (invoker (snd (redo w)))
       = if fst (redo w) then undoStack (invoker w) ++ [r]
         else undoStack (invoker w)).
Proof.
  split; [| split; [| split]].
  - unfold canUndo, undo. destruct (undoStack (invoker w)) as [| r us] eqn:Hus.
    + reflexivity.
    + discriminate.
  - unfold canRedo, redo. destruct (redoStack (invoker w)) as [| r rs] eqn:Hrs.
    + reflexivity.
    + discriminate.
  - intros us r Hus. rewrite (undo_top w us r Hus). cbn. auto.
  - intros rs r Hrs. rewrite (redo_top w rs r Hrs). cbn. auto.
Qed.

Lemma undo_redo_pop_the_top_witness :
  undo worldA1Z9 = (false, worldA1Z9) /\
  undoStack (invoker (snd (undo (snd (executeCommand 0%nat worldA1Z9))))) = [].
Proof.
  destruct (undo_redo_pop_the_top worldA1Z9) as (Hempty & _).
  destruct (undo_redo_pop_the_top (snd (executeCommand 0%nat worldA1Z9)))
    as (_ & _ & Hpop & _).
  split.
  - apply Hempty. reflexivity.
  - apply (Hpop [] 0%nat). vm_compute. reflexivity.
Defined.

(** X23.  A select command whose seat is no longer SELECTED cannot be
    undone: when the top of the undo stack is an executed select command
    for a code whose seat is missing or has another status (BOOKED after
    [confirmBooking], say), [undo] returns false, leaves the registry, the
    command objects and the redo stack as they are, and drops the command
    from the undo stack. *)
Theorem stale_select_is_dropped (w : World) (us : list ref) (r : ref)
    (code : string) :
  undoStack (invoker w) = us ++ [r] ->
  objects w !! r = Some (SelectSeatCommand code true) ->
  (forall seat, seats (manager w) !! code = Some seat -> status seat <> SELECTED) ->
  undo w =
  (false,
   mkWorld (manager w) (objects w)
     (mkInvoker us (redoStack (invoker w)) (maxHistorySize (invoker w)))).
Proof.
  intros Hus Hobj Hst. rewrite (undo_top w us r Hus).
  unfold undoCommand. cbn [objects manager]. rewrite Hobj. cbn [negb].
  assert (Hf : fst (deselectSeat code (manager w)) = false).
  { destruct (fst (deselectSeat code (manager w))) eqn:Hfst; [| reflexivity].
    apply deselectSeat_true in Hfst as (seat & Hl & Hs).
    destruct (Hst seat Hl Hs). }
  rewrite (deselectSeat_false _ _ Hf). reflexivity.
Qed.

Lemma stale_select_is_dropped_witness :
  let w :=
    snd (Controller_confirmBooking (snd (executeCommand 0%nat worldA1Z9))) in
  fst (undo w) = false /\ manager (snd (undo w)) = manager w /\
  undoStack (invoker (snd (undo w))) = [].
Proof.
  intros w.
  rewrite (stale_select_is_dropped w [] 0%nat "A1").
  - repeat apply conj; reflexivity.
  - vm_compute. reflexivity.
  - vm_compute. reflexivity.
  - intros seat Hl Hs.
    assert (H : status <$> seats (manager w) !! "A1" = Some BOOKED)
      by (vm_compute; reflexivity).
    rewrite Hl in H. cbn in H. congruence.
Defined.

Lemma historyBounded_executeCommand (r : ref) (w : World) :
  historyBounded w -> historyBounded (snd (executeCommand r w)).
Proof.
  unfold historyBounded, executeCommand. intros Hb.
  pose proof (execute_invoker r w) as Hinv.
  destruct (execute r w) as [[] w']; cbn [fst snd] in *; rewrite Hinv.
  - cbn [invoker undoStack redoStack maxHistorySize length].
    destruct (maxHistorySize (invoker w) <? _) eqn:Hcmp.
    + rewrite length_tl, length_app. cbn. lia.
    + apply Z.ltb_ge in Hcmp. lia.
  - exact Hb.
Qed.

Lemma historyBounded_undo (w : World) :
  historyBounded w -> historyBounded (snd (undo w)).
Proof.
  intros Hb. destruct (last (undoStack (invoker w))) as [r |] eqn:Hlast.
  - apply last_Some in Hlast as [us Hus].
    rewrite (undo_top w us r Hus). unfold historyBounded in *.
    cbn [snd invoker undoStack redoStack maxHistorySize].
    rewrite Hus, length_app in Hb. cbn in Hb.
    destruct (fst (undoCommand r _)); rewrite ?length_app; cbn; lia.
  - unfold undo. rewrite Hlast. exact Hb.
Qed.

Lemma historyBounded_redo (w : World) :
  historyBounded w -> historyBounded (snd (redo w)).
Proof.
  intros Hb. destruct (last (redoStack (invoker w))) as [r |] eqn:Hlast.
  - apply last_Some in Hlast as [rs Hrs].
    rewrite (redo_top w rs r Hrs). unfold historyBounded in *.
    cbn [snd invoker undoStack redoStack maxHistorySize].
    rewrite Hrs, length_app in Hb. cbn in Hb.
    destruct (fst (execute r _)); rewrite ?length_app; cbn; lia.
  - unfold redo. rewrite Hlast. exact Hb.
Qed.

(** X24.  The history stays within its size: from a new invoker, whatever
    commands are executed, undone and redone and whenever the history is
    cleared, the undo stack and the redo stack together never hold more
    commands than [maxHistorySize] (none at all when it is not
    positive). *)
Theorem history_stays_bounded (m : SeatManager) (os : gmap ref SeatCommand)
    (maxHistorySize : option Z) (ks : list InvokerCall) :
  historyBounded
    (invokerCalls ks (mkWorld m os (new_SeatSelectionInvoker maxHistorySize))).
Proof.
  unfold invokerCalls. apply foldl_preserves.
  - intros w [r | | |] Hb; cbn.
    + apply historyBounded_executeCommand, Hb.
    + apply historyBounded_undo, Hb.
    + apply historyBounded_redo, Hb.
    + unfold historyBounded. cbn. lia.
  - unfold historyBounded. cbn. lia.
Qed.

(** *** The deselect command *)

Lemma Set_add_delete (x : string) (l : list string) :
  Set_add x (Set_delete x l) = Set_delete x l ++ [x].
Proof.
  unfold Set_add. rewrite decide_False; [reflexivity |].
  intros [Hne _]%elem_of_Set_delete. congruence.
Qed.

Lemma Set_delete_Permutation (x : string) (l : list string) :
  NoDup l -> x ∈ l -> Set_delete x l ++ [x] ≡ₚ l.
Proof.
  intros Hnd Hin. apply NoDup_Permutation; [| exact Hnd |].
  - apply NoDup_app. split; [apply NoDup_Set_delete, Hnd |]. split.
    + intros y [Hne _]%elem_of_Set_delete ->%list_elem_of_singleton. congruence.
    + apply NoDup_singleton.
  - intros y. rewrite elem_of_app, elem_of_Set_delete, list_elem_of_singleton.
    destruct (decide (y = x)) as [-> | Hne]; tauto.
Qed.

(** X25.  A deselect command undone gives the seats back but not the order
    of the selection: in a registry whose selected set matches the
    statuses, [execute] on a deselect command for a SELECTED seat and then
    [undo] on it both return true and leave every seat as it was, while
    the code now stands last in the selected set. *)
Theorem deselect_command_undone (r : ref) (code : string) (seat : SeatImpl)
    (w : World) :
  consistent (manager w) ->
  objects w !! r = Some (DeselectSeatCommand code false) ->
  seats (manager w) !! code = Some seat -> status seat = SELECTED ->
  let w2 := snd (undoCommand r (snd (execute r w))) in
  fst (execute r w) = true /\
  fst (undoCommand r (snd (execute r w))) = true /\
  seats (manager w2) = seats (manager w) /\
  selectedSeats (manager w2)
    = Set_delete code (selectedSeats (manager w)) ++ [code] /\
  selectedSeats (manager w2) ≡ₚ selectedSeats (manager w).
Proof.
  intros [Hnd Hiff] Hobj Hl Hs. unfold execute. rewrite Hobj.
  rewrite (deselectSeat_success _ _ _ Hl Hs). cbn [fst snd].
  unfold undoCommand. cbn [objects manager]. rewrite lookup_insert_eq. cbn [negb].
  rewrite (selectSeat_success _ _ (set_status AVAILABLE seat))
    by first [apply lookup_insert_eq | reflexivity].
  cbn [fst snd manager seats selectedSeats].
  rewrite insert_insert_eq, Set_add_delete.
  replace (set_status SELECTED (set_status AVAILABLE seat)) with seat
    by (destruct seat; cbn in Hs; subst; reflexivity).
  rewrite (insert_id _ _ _ Hl).
  repeat apply conj; try reflexivity.
  apply Set_delete_Permutation; [exact Hnd |]. apply Hiff. eauto.
Qed.

Lemma deselect_command_undone_witness :
  let w :=
    worldOf (ops [OpSelectSeat "A1"; OpSelectSeat "A2"] (freshRegistry 5 5))
      [new_DeselectSeatCommand "A1"] None in
  selectedSeats (manager w) = ["A1"; "A2"] /\
  selectedSeats (manager (snd (undoCommand 0%nat (snd (execute 0%nat w)))))
    = ["A2"; "A1"].
Proof.
  intros w. split; [vm_compute; reflexivity |].
  destruct (deselect_command_undone 0%nat "A1"
              (mkSeat "SHW-1-A1" (Some "A") 1 REGULAR SELECTED (JS.of_Z 50000)) w)
    as (_ & _ & _ & Hsel & _).
  - apply (consistent_ops [OpSelectSeat "A1"; OpSelectSeat "A2"]),
      noneSelected_consistent, noneSelected_initializeSeats.
  - reflexivity.
  - vm_compute. reflexivity.
  - reflexivity.
  - rewrite Hsel. vm_compute. reflexivity.
Defined.

(** *** The facade *)

Lemma new_fresh (c : SeatCommand) (w : World) :
  objects w !! fst (new c w) = None.
Proof.
  unfold new. cbn. apply not_elem_of_dom, is_fresh.
Qed.

(** X26.  The facade adds nothing to the registry's decision:
    [SeatSelectionController.selectSeat] returns what [selectSeat] of the
    registry returns on that code and leaves the registry as that call
    leaves it, and the same holds for [deselectSeat]; the command objects
    already in the history are untouched, and a call that returns false
    leaves both stacks as they were. *)
Theorem controller_defers_to_registry (seatCode : string) (w : World) :
  (fst (Controller_selectSeat seatCode w) = fst (selectSeat seatCode (manager w)) /\
   manager (snd (Controller_selectSeat seatCode w))
     = snd (selectSeat seatCode (manager w)) /\
   (fst (Controller_selectSeat seatCode w) = false ->
      invoker (snd (Controller_selectSeat seatCode w)) = invoker w) /\
   forall r c, objects w !! r = Some c ->
     objects (snd (Controller_selectSeat seatCode w)) !! r = Some c) /\
  (fst (Controller_deselectSeat seatCode w)
     = fst (deselectSeat seatCode (manager w)) /\
   manager (snd (Controller_deselectSeat seatCode w))
     = snd (deselectSeat seatCode (manager w)) /\
   (fst (Controller_deselectSeat seatCode w) = false ->
      invoker (snd (Controller_deselectSeat seatCode w)) = invoker w) /\
   forall r c, objects w !! r = Some c ->
     objects (snd (Controller_deselectSeat seatCode w)) !! r = Some c).
Proof.
  split.
  - pose proof (new_fresh (new_SelectSeatCommand seatCode) w) as Hfresh.
    unfold Controller_selectSeat, new in *. cbn [fst] in Hfresh.
    set (r := fresh (dom (objects w))) in *.
    unfold executeCommand, execute. cbn [objects manager].
    rewrite lookup_insert_eq. unfold new_SelectSeatCommand.
    destruct (selectSeat seatCode (manager w)) as [[] m1];
      cbn [fst snd manager objects invoker];
      (split; [reflexivity |]); (split; [reflexivity |]);
      (split; [try discriminate; reflexivity |]);
      intros r' c Hc; rewrite ?lookup_insert_ne by congruence; exact Hc.
  - pose proof (new_fresh (new_DeselectSeatCommand seatCode) w) as Hfresh.
    unfold Controller_deselectSeat, new in *. cbn [fst] in Hfresh.
    set (r := fresh (dom (objects w))) in *.
    unfold executeCommand, execute. cbn [objects manager].
    rewrite lookup_insert_eq. unfold new_DeselectSeatCommand.
    destruct (deselectSeat seatCode (manager w)) as [[] m1];
      cbn [fst snd manager objects invoker];
      (split; [reflexivity |]); (split; [reflexivity |]);
      (split; [try discriminate; reflexivity |]);
      intros r' c Hc; rewrite ?lookup_insert_ne by congruence; exact Hc.
Qed.

Lemma controller_defers_to_registry_witness :
  invoker (snd (Controller_selectSeat "Z9" worldA1Z9)) = invoker worldA1Z9.
Proof.
  destruct (controller_defers_to_registry "Z9" worldA1Z9)
    as [(_ & _ & Hinv & _) _].
  apply Hinv. vm_compute. reflexivity.
Defined.

(** *** The history engine and the registry *)

Lemma consistent_execute (r : ref) (w : World) :
  consistent (manager w) -> consistent (manager (snd (execute r w))).
Proof.
  intros Hm. unfold execute.
  destruct (objects w !! r) as [[code [] | code [] | codes old []] |];
    try exact Hm.
  - pose proof (consistent_selectSeat code _ Hm) as H.
    destruct (selectSeat code (manager w)) as [[] m]; exact H.
  - pose proof (consistent_deselectSeat code _ Hm) as H.
    destruct (deselectSeat code (manager w)) as [[] m]; exact H.
  - pose proof (consistent_selectEach codes _ Hm) as H.
    destruct (selectEach codes (manager w)) as [succ m]. exact H.
Qed.

Lemma consistent_undoCommand (r : ref) (w : World) :
  consistent (manager w) -> consistent (manager (snd (undoCommand r w))).
Proof.
  intros Hm. unfold undoCommand.
  destruct (objects w !! r) as [[code [] | code [] | codes succ []] |];
    try exact Hm; cbn [negb].
  - pose proof (consistent_deselectSeat code _ Hm) as H.
    destruct (deselectSeat code (manager w)) as [[] m]; exact H.
  - pose proof (consistent_selectSeat code _ Hm) as H.
    destruct (selectSeat code (manager w)) as [[] m]; exact H.
  - apply consistent_deselectEach, Hm.
Qed.

Lemma consistent_invokerCall (k : InvokerCall) (w : World) :
  consistent (manager w) -> consistent (manager (invokerCall k w)).
Proof.
  intros Hm. destruct k as [r | | |]; cbn.
  - unfold executeCommand. pose proof (consistent_execute r w Hm) as H.
    destruct (execute r w) as [[] w']; exact H.
  - destruct (last (undoStack (invoker w))) as [r |] eqn:Hlast.
    + apply last_Some in Hlast as [us Hus]. rewrite (undo_top w us r Hus).
      cbn. apply (consistent_undoCommand r (mkWorld _ _ _)), Hm.
    + unfold undo. rewrite Hlast. exact Hm.
  - destruct (last (redoStack (invoker w))) as [r |] eqn:Hlast.
    + apply last_Some in Hlast as [rs Hrs]. rewrite (redo_top w rs r Hrs).
      cbn. apply (consistent_execute r (mkWorld _ _ _)), Hm.
    + unfold redo. rewrite Hlast. exact Hm.
  - exact Hm.
Qed.

(** X27.  The history engine keeps the registry sound: whatever commands,
    of the three classes, are executed, undone and redone, a selected set
    that matched the seat statuses before still matches them after, so
    that the total of the selected seats is still the sum of the prices of
    the seats whose status is SELECTED. *)
Theorem history_keeps_registry_consistent (ks : list InvokerCall) (w : World) :
  consistent (manager w) ->
  consistent (manager (invokerCalls ks w)) /\
  getSelectedSeatsTotal (manager (invokerCalls ks w))
    = selectedStatusTotal (manager (invokerCalls ks w)).
Proof.
  intros Hm.
  assert (H : consistent (manager (invokerCalls ks w))).
  { unfold invokerCalls.
    apply (foldl_preserves (fun w => consistent (manager w))); [| exact Hm].
    intros w' k. apply consistent_invokerCall. }
  split; [exact H | apply consistent_total, H].
Qed.

Lemma history_keeps_registry_consistent_witness :
  consistent
    (manager (invokerCalls [CallExecuteCommand 0%nat; CallUndo; CallRedo]
                worldBatch)).
Proof.
  apply history_keeps_registry_consistent.
  apply noneSelected_consistent, noneSelected_initializeSeats.
Defined.

End InvokerSpec.

(** * Properties of the seat-availability service *)

Module SeatAvailabilitySpec.

Import Seat SeatSelection SeatAvailability.

(** *** Finding a seat and assigning to it *)

Section Update.

Variable f : SeatImpl -> SeatImpl.
Hypothesis f_code : forall seat, getCode (f seat) = getCode seat.

Lemma findInRow_update (c c' : string) (row : list SeatImpl) :
  findInRow c' (updateInRow c f row)
  = if decide (c' = c) then f <$> findInRow c row else findInRow c' row.
Proof.
  induction row as [| seat row IH]; cbn.
  - destruct (decide (c' = c)); reflexivity.
  - destruct (decide (getCode seat = c)) as [Hc | Hc]; cbn.
    + rewrite f_code. destruct (decide (c' = c)) as [-> | Hne].
      * rewrite decide_True by exact Hc. reflexivity.
      * rewrite decide_False by congruence. rewrite decide_False by congruence.
        reflexivity.
    + rewrite IH. destruct (decide (c' = c)) as [-> | Hne].
      * rewrite decide_False by exact Hc. reflexivity.
      * reflexivity.
Qed.

Lemma findInRows_update (c c' : string) (rows : list (list SeatImpl)) :
  findInRows c' (updateInRows c f rows)
  = if decide (c' = c) then f <$> findInRows c rows else findInRows c' rows.
Proof.
  induction rows as [| row rows IH]; cbn.
  - destruct (decide (c' = c)); reflexivity.
  - destruct (findInRow c row) as [seat |] eqn:Hrow; cbn.
    + rewrite findInRow_update, Hrow.
      destruct (decide (c' = c)); [reflexivity |].
      destruct (findInRow c' row); reflexivity.
    + rewrite IH. destruct (decide (c' = c)) as [-> | Hne].
      * rewrite Hrow. reflexivity.
      * reflexivity.
Qed.

End Update.

Lemma updateInRow_fixed (c : string) (f : SeatImpl -> SeatImpl)
    (row : list SeatImpl) :
  (forall seat, findInRow c row = Some seat -> f seat = seat) ->
  updateInRow c f row = row.
Proof.
  induction row as [| seat row IH]; intros Hf; cbn in *; [reflexivity |].
  destruct (decide (getCode seat = c)).
  - rewrite Hf by reflexivity. reflexivity.
  - rewrite IH by exact Hf. reflexivity.
Qed.

Lemma updateInRows_fixed (c : string) (f : SeatImpl -> SeatImpl)
    (rows : list (list SeatImpl)) :
  (forall seat, findInRows c rows = Some seat -> f seat = seat) ->
  updateInRows c f rows = rows.
Proof.
  induction rows as [| row rows IH]; intros Hf; cbn in *; [reflexivity |].
  destruct (findInRow c row) as [seat |] eqn:Hrow.
  - rewrite updateInRow_fixed; [reflexivity |].
    intros seat' Hseat'. apply Hf. congruence.
  - rewrite IH by exact Hf. reflexivity.
Qed.

Lemma updateInRow_twice (c : string) (f g : SeatImpl -> SeatImpl)
    (row : list SeatImpl) :
  (forall seat, getCode (g seat) = getCode seat) ->
  updateInRow c f (updateInRow c g row) = updateInRow c (fun s => f (g s)) row.
Proof.
  intros Hg. induction row as [| seat row IH]; cbn; [reflexivity |].
  destruct (decide (getCode seat = c)) as [Hc | Hc]; cbn.
  - rewrite Hg, decide_True by exact Hc. reflexivity.
  - rewrite decide_False by exact Hc. rewrite IH. reflexivity.
Qed.

Lemma updateInRows_twice (c : string) (f g : SeatImpl -> SeatImpl)
    (rows : list (list SeatImpl)) :
  (forall seat, getCode (g seat) = getCode seat) ->
  updateInRows c f (updateInRows c g rows)
  = updateInRows c (fun s => f (g s)) rows.
Proof.
  intros Hg. induction rows as [| row rows IH]; cbn; [reflexivity |].
  destruct (findInRow c row) as [seat |] eqn:Hrow; cbn.
  - rewrite (findInRow_update g Hg), decide_True, Hrow by reflexivity. cbn.
    rewrite updateInRow_twice by exact Hg. reflexivity.
  - rewrite Hrow, IH. reflexivity.
Qed.

Lemma set_status_code (st : SeatStatus) (seat : SeatImpl) :
  getCode (set_status st seat) = getCode seat.
Proof. reflexivity. Qed.

(** *** The lazy initialisation *)

Lemma initializeShowtime_Some (random : string -> nat -> nat -> bool)
    (showtimeId : string) (sv : RealSeatAvailabilityService) :
  is_Some (seatData (initializeShowtime random showtimeId sv) !! showtimeId).
Proof.
  unfold initializeShowtime. destruct (seatData sv !! showtimeId) eqn:Hl.
  - rewrite Hl. eauto.
  - cbn. rewrite lookup_insert_eq. eauto.
Qed.

Lemma initializeShowtime_done (random : string -> nat -> nat -> bool)
    (showtimeId : string) (sv : RealSeatAvailabilityService) :
  is_Some (seatData sv !! showtimeId) ->
  initializeShowtime random showtimeId sv = sv.
Proof. intros [M HM]. unfold initializeShowtime. rewrite HM. reflexivity. Qed.

Lemma initializeShowtime_other (random : string -> nat -> nat -> bool)
    (showtimeId other : string) (sv : RealSeatAvailabilityService) :
  other <> showtimeId ->
  seatData (initializeShowtime random showtimeId sv) !! other
  = seatData sv !! other.
Proof.
  intros Hne. unfold initializeShowtime.
  destruct (seatData sv !! showtimeId); [reflexivity |].
  cbn. apply lookup_insert_ne. congruence.
Qed.

Lemma findSeat_done (random : string -> nat -> nat -> bool)
    (showtimeId seatCode : string) (sv : RealSeatAvailabilityService) :
  is_Some (seatData sv !! showtimeId) ->
  findSeat random showtimeId seatCode sv
  = (findInRows seatCode (matrixOf showtimeId sv), sv).
Proof.
  intros Hsv. unfold findSeat. rewrite initializeShowtime_done by exact Hsv.
  reflexivity.
Qed.

Lemma assignStatus_Some (showtimeId seatCode : string) (st : SeatStatus)
    (sv : RealSeatAvailabilityService) (other : string) :
  is_Some (seatData sv !! other) ->
  is_Some (seatData (assignStatus showtimeId seatCode st sv) !! other).
Proof.
  intros [M HM]. unfold assignStatus. cbn. rewrite lookup_alter.
  case_decide as Hc; [subst other; rewrite HM; cbn; eauto | eauto].
Qed.

Lemma matrixOf_assignStatus (showtimeId seatCode : string) (st : SeatStatus)
    (sv : RealSeatAvailabilityService) :
  matrixOf showtimeId (assignStatus showtimeId seatCode st sv)
  = updateInRows seatCode (set_status st) (matrixOf showtimeId sv).
Proof.
  unfold matrixOf, assignStatus. cbn. rewrite lookup_alter_eq.
  destruct (seatData sv !! showtimeId); reflexivity.
Qed.

Lemma find_assignStatus (showtimeId seatCode code : string) (st : SeatStatus)
    (sv : RealSeatAvailabilityService) :
  findInRows code (matrixOf showtimeId (assignStatus showtimeId seatCode st sv))
  = if decide (code = seatCode)
    then set_status st <$> findInRows seatCode (matrixOf showtimeId sv)
    else findInRows code (matrixOf showtimeId sv).
Proof.
  rewrite matrixOf_assignStatus.
  apply (findInRows_update (set_status st) (set_status_code st)).
Qed.

Lemma assignStatus_other (showtimeId seatCode other : string) (st : SeatStatus)
    (sv : RealSeatAvailabilityService) :
  other <> showtimeId ->
  seatData (assignStatus showtimeId seatCode st sv) !! other
  = seatData sv !! other.
Proof.
  intros Hne. unfold assignStatus. cbn. apply lookup_alter_ne. congruence.
Qed.


Lemma assign_back (showtimeId seatCode : string) (st st' : SeatStatus)
    (seat : SeatImpl) (sv : RealSeatAvailabilityService) :
  findInRows seatCode (matrixOf showtimeId sv) = Some seat ->
  status seat = st ->
  assignStatus showtimeId seatCode st (assignStatus showtimeId seatCode st' sv)
  = sv.
Proof.
  intros Hfind Hst. destruct sv as [data]. unfold assignStatus, matrixOf in *.
  cbn in *. f_equal. apply map_eq. intros k.
  destruct (decide (showtimeId = k)) as [<- | Hk];
    [rewrite !lookup_alter_eq | rewrite !lookup_alter_ne by exact Hk; reflexivity].
  destruct (data !! showtimeId) as [M |] eqn:HM; cbn in *; [| reflexivity].
  f_equal. rewrite updateInRows_twice by apply set_status_code.
  apply updateInRows_fixed. intros seat' Hseat'. rewrite Hfind in Hseat'.
  injection Hseat' as <-. destruct seat; cbn in *; subst; reflexivity.
Qed.

(** X29.  [selectSeat] of the service first makes the seats of the
    showtime if they were not made yet.  It returns true exactly when the
    first seat with the code is AVAILABLE; it then sets that seat to
    SELECTED and changes no other seat and no other showtime, and a
    [deselectSeat] on the same code returns true and gives the service
    back as it was after the initialisation.  When it returns false the
    service is as the initialisation left it. *)
Theorem service_select_then_deselect (random : string -> nat -> nat -> bool)
    (showtimeId seatCode : string) (sv : RealSeatAvailabilityService) :
  let sv1 := initializeShowtime random showtimeId sv in
  let res := selectSeat random showtimeId seatCode sv in
  (fst res = true <->
   exists seat,
     findInRows seatCode (matrixOf showtimeId sv1) = Some seat /\
     status seat = AVAILABLE) /\
  (fst res = false -> snd res = sv1) /\
  (fst res = true ->
     (forall code,
        findInRows code (matrixOf showtimeId (snd res))
        = if decide (code = seatCode)
          then set_status SELECTED <$> findInRows seatCode (matrixOf showtimeId sv1)
          else findInRows code (matrixOf showtimeId sv1)) /\
     (forall other, other <> showtimeId ->
        seatData (snd res) !! other = seatData sv !! other) /\
     deselectSeat random showtimeId seatCode (snd res) = (true, sv1)).
Proof.
  intros sv1 res. subst res. unfold selectSeat, findSeat. fold sv1.
  pose proof (initializeShowtime_Some random showtimeId sv) as Hsome.
  fold sv1 in Hsome.
  destruct (findInRows seatCode (matrixOf showtimeId sv1)) as [seat |] eqn:Hfind.
  - destruct (decide (status seat = AVAILABLE)) as [Hs | Hs]; cbn [fst snd].
    + split; [split; [eauto | reflexivity] |]. split; [discriminate |].
      intros _. split; [| split].
      * intros code. rewrite find_assignStatus, Hfind. reflexivity.
      * intros other Hne. rewrite assignStatus_other by exact Hne.
        apply initializeShowtime_other, Hne.
      * unfold deselectSeat.
        rewrite findSeat_done by (apply assignStatus_Some, Hsome).
        rewrite find_assignStatus, decide_True, Hfind by reflexivity. cbn.
        rewrite (assign_back _ _ _ _ seat) by assumption. reflexivity.
    + split; [split; [discriminate |] |].
      * intros (seat' & [= <-] & Hs'). contradiction.
      * split; [reflexivity | discriminate].
  - cbn [fst snd]. split; [split; [discriminate |] |].
    + intros (seat' & [=] & _).
    + split; [reflexivity | discriminate].
Qed.

Lemma service_select_then_deselect_witness :
  deselectSeat (fun _ _ _ => false) "SHW-1" "A1"
    (snd (selectSeat (fun _ _ _ => false) "SHW-1" "A1"
            new_RealSeatAvailabilityService))
  = (true,
     initializeShowtime (fun _ _ _ => false) "SHW-1"
       new_RealSeatAvailabilityService).
Proof.
  apply (service_select_then_deselect (fun _ _ _ => false) "SHW-1" "A1"
           new_RealSeatAvailabilityService).
  vm_compute. reflexivity.
Defined.

(** *** [confirmBooking] *)

(** The check the first loop makes on one code. *)
Lemma verifySelected_done (random : string -> nat -> nat -> bool)
    (showtimeId : string) (seatCodes : list string)
    (sv : RealSeatAvailabilityService) :
  is_Some (seatData sv !! showtimeId) ->
  snd (verifySelected random showtimeId seatCodes sv) = sv /\
  (fst (verifySelected random showtimeId seatCodes sv) = true <->
   forall code, code ∈ seatCodes ->
     exists seat,
       findInRows code (matrixOf showtimeId sv) = Some seat /\
       status seat = SELECTED).
Proof.
  intros Hsv. induction seatCodes as [| c cs [IHsnd IHfst]];
    cbn [verifySelected].
  - split; [reflexivity |]. split; [| reflexivity].
    intros _ code Hin. apply elem_of_nil in Hin as [].
  - rewrite findSeat_done by exact Hsv.
    destruct (findInRows c (matrixOf showtimeId sv)) as [seat |] eqn:Hfind.
    + destruct (decide (status seat <> SELECTED)) as [Hs | Hs]; cbn.
      * split; [reflexivity |]. split; [discriminate |].
        intros H. destruct (H c) as (seat' & Hseat' & Hs');
          [apply list_elem_of_here |].
        rewrite Hfind in Hseat'. injection Hseat' as <-. contradiction.
      * split; [exact IHsnd |]. rewrite IHfst. split.
        -- intros H code [-> | Hin]%elem_of_cons; [| apply H, Hin].
           exists seat. split; [exact Hfind | apply dec_stable, Hs].
        -- intros H code Hin. apply H, list_elem_of_further, Hin.
    + cbn. split; [reflexivity |]. split; [discriminate |].
      intros H. destruct (H c) as (seat' & Hseat' & _);
        [apply list_elem_of_here |].
      rewrite Hfind in Hseat'. discriminate.
Qed.

Lemma verifySelected_init (random : string -> nat -> nat -> bool)
    (showtimeId : string) (seatCodes : list string)
    (sv : RealSeatAvailabilityService) :
  seatCodes <> [] ->
  verifySelected random showtimeId seatCodes sv
  = verifySelected random showtimeId seatCodes
      (initializeShowtime random showtimeId sv).
Proof.
  destruct seatCodes as [| c cs]; [contradiction |]. intros _.
  cbn [verifySelected]. unfold findSeat.
  rewrite (initializeShowtime_done random showtimeId
             (initializeShowtime random showtimeId sv))
    by apply initializeShowtime_Some.
  reflexivity.
Qed.

Lemma bookEach_done (random : string -> nat -> nat -> bool)
    (showtimeId : string) (seatCodes : list string)
    (sv : RealSeatAvailabilityService) :
  is_Some (seatData sv !! showtimeId) ->
  (forall code,
     findInRows code (matrixOf showtimeId (bookEach random showtimeId seatCodes sv))
     = if decide (code ∈ seatCodes)
       then set_status BOOKED <$> findInRows code (matrixOf showtimeId sv)
       else findInRows code (matrixOf showtimeId sv)) /\
  (forall other, other <> showtimeId ->
     seatData (bookEach random showtimeId seatCodes sv) !! other
     = seatData sv !! other).
Proof.
  unfold bookEach. revert sv.
  induction seatCodes as [| c cs IH]; intros sv Hsv; cbn [foldl].
  - split; [| reflexivity]. intros code.
    rewrite decide_False by apply not_elem_of_nil. reflexivity.
  - rewrite findSeat_done by exact Hsv.
    set (sv' := match findInRows c (matrixOf showtimeId sv) with
                | Some _ => assignStatus showtimeId c BOOKED sv
                | None => sv
                end).
    assert (Hsv' : is_Some (seatData sv' !! showtimeId)).
    { unfold sv'. destruct (findInRows c _); [apply assignStatus_Some |];
        exact Hsv. }
    assert (Hfind' : forall code,
              findInRows code (matrixOf showtimeId sv')
              = if decide (code = c)
                then set_status BOOKED <$> findInRows c (matrixOf showtimeId sv)
                else findInRows code (matrixOf showtimeId sv)).
    { intros code. unfold sv'.
      destruct (findInRows c (matrixOf showtimeId sv)) eqn:Hc.
      - rewrite find_assignStatus, Hc. reflexivity.
      - destruct (decide (code = c)) as [-> | Hne]; [exact Hc | reflexivity]. }
    assert (Hother' : forall other, other <> showtimeId ->
              seatData sv' !! other = seatData sv !! other).
    { intros other Hne. unfold sv'. destruct (findInRows c _); [| reflexivity].
      apply assignStatus_other, Hne. }
    destruct (IH sv' Hsv') as [IHfind IHother]. split.
    + intros code. rewrite IHfind, Hfind'.
      destruct (decide (code = c)) as [-> | Hne].
      * rewrite (decide_True (P := c ∈ c :: cs)) by apply list_elem_of_here.
        destruct (decide (c ∈ cs)); [| reflexivity].
        destruct (findInRows c (matrixOf showtimeId sv)); reflexivity.
      * destruct (decide (code ∈ cs)) as [Hin | Hout].
        -- rewrite decide_True by (apply list_elem_of_further, Hin). reflexivity.
        -- rewrite decide_False; [reflexivity |].
           intros [? | ?]%elem_of_cons; contradiction.
    + intros other Hne. rewrite IHother, Hother' by exact Hne. reflexivity.
Qed.

(** X30.  [confirmBooking] of the service is all or nothing.  With at
    least one code it first makes the seats of the showtime if they were
    not made yet, and then returns true exactly when every code finds a
    SELECTED seat: in that case every seat found by one of the codes is
    BOOKED afterwards and every other seat and showtime is as it was;
    otherwise no seat changes.  With no code it returns true and changes
    nothing. *)
Theorem service_confirm_all_or_nothing (random : string -> nat -> nat -> bool)
    (showtimeId : string) (seatCodes : list string)
    (sv : RealSeatAvailabilityService) :
  let sv1 := initializeShowtime random showtimeId sv in
  let res := confirmBooking random showtimeId seatCodes sv in
  confirmBooking random showtimeId [] sv = (true, sv) /\
  (seatCodes <> [] ->
   (fst res = true <->
    forall code, code ∈ seatCodes ->
      exists seat,
        findInRows code (matrixOf showtimeId sv1) = Some seat /\
        status seat = SELECTED) /\
   (fst res = false -> snd res = sv1) /\
   (fst res = true ->
      (forall code,
         findInRows code (matrixOf showtimeId (snd res))
         = if decide (code ∈ seatCodes)
           then set_status BOOKED <$> findInRows code (matrixOf showtimeId sv1)
           else findInRows code (matrixOf showtimeId sv1)) /\
      (forall other, other <> showtimeId ->
         seatData (snd res) !! other = seatData sv !! other))).
Proof.
  intros sv1 res. split; [reflexivity |]. intros Hne. subst res.
  unfold confirmBooking. rewrite (verifySelected_init _ _ _ _ Hne). fold sv1.
  pose proof (initializeShowtime_Some random showtimeId sv) as Hsome.
  fold sv1 in Hsome.
  destruct (verifySelected_done random showtimeId seatCodes sv1 Hsome)
    as [Hsnd Hfst].
  destruct (verifySelected random showtimeId seatCodes sv1) as [ok sv'].
  cbn [fst snd] in *. subst sv'. destruct ok; cbn [fst snd].
  - split; [split; [intros _; apply Hfst; reflexivity | reflexivity] |].
    split; [discriminate |]. intros _.
    destruct (bookEach_done random showtimeId seatCodes sv1 Hsome)
      as [Hfind Hother].
    split; [exact Hfind |]. intros other Hother'.
    rewrite Hother by exact Hother'. apply initializeShowtime_other, Hother'.
  - split; [split; [discriminate |] |].
    + intros H. apply Hfst in H. discriminate H.
    + split; [reflexivity | discriminate].
Qed.

Lemma service_confirm_all_or_nothing_witness :
  fst (confirmBooking (fun _ _ _ => false) "SHW-1" ["A1"; "A2"]
         (serviceWithSelected "SHW-1" ["A1"])) = false /\
  snd (confirmBooking (fun _ _ _ => false) "SHW-1" ["A1"; "A2"]
         (serviceWithSelected "SHW-1" ["A1"]))
  = initializeShowtime (fun _ _ _ => false) "SHW-1"
      (serviceWithSelected "SHW-1" ["A1"]).
Proof.
  destruct (service_confirm_all_or_nothing (fun _ _ _ => false) "SHW-1"
              ["A1"; "A2"] (serviceWithSelected "SHW-1" ["A1"]))
    as [_ H].
  destruct H as (_ & Hfalse & _); [discriminate |].
  assert (Hf : fst (confirmBooking (fun _ _ _ => false) "SHW-1" ["A1"; "A2"]
                      (serviceWithSelected "SHW-1" ["A1"])) = false)
    by (vm_compute; reflexivity).
  split; [exact Hf | apply Hfalse, Hf].
Defined.

End SeatAvailabilitySpec.
